(** * Employee vacation requests: the request life cycle of [app.py]

    A shallow embedding of the Flask service in [src/app.py]: the employee
    and manager dictionaries, the list of vacation requests, and the
    handlers that read and mutate them.  Handlers are written in a small
    state-and-exception monad so that each definition follows its Python
    function line by line. *)

From stdpp Require Import gmap strings list sorting.
From Stdlib Require Import ZArith Lia Ascii.

Local Open Scope Z_scope.

(** ** Naive datetimes

    The handlers use five operations of Python's [datetime]: comparison,
    subtraction followed by [.days], [weekday()], adding [timedelta(days=1)]
    and [isoformat()].  A naive datetime is represented by the proleptic
    Gregorian ordinal of its date ([date.toordinal()], 0001-01-01 is day 1)
    and the microseconds elapsed since midnight. *)

Record datetime : Type := mk_datetime {
  ordinal : Z;
  micros : Z
}.

#[global] Instance datetime_eq_dec : EqDecision datetime.
Proof. solve_decision. Defined.

(** [date.max.toordinal()], the ordinal of 9999-12-31. *)
Definition MAXORDINAL : Z := 3652059.

Definition US_PER_DAY : Z := 86400000000.

(** [a <= b] on datetimes compares the components lexicographically. *)
Definition dt_le (a b : datetime) : Prop :=
  ordinal a < ordinal b ∨ (ordinal a = ordinal b ∧ micros a ≤ micros b).

Definition dt_lt (a b : datetime) : Prop :=
  ordinal a < ordinal b ∨ (ordinal a = ordinal b ∧ micros a < micros b).

#[global] Instance dt_le_dec a b : Decision (dt_le a b).
Proof. unfold dt_le. apply _. Defined.

#[global] Instance dt_lt_dec a b : Decision (dt_lt a b).
Proof. unfold dt_lt. apply _. Defined.

(** [(e - s).days]: a [timedelta] is normalised so that its seconds and
    microseconds are non-negative, hence [.days] is the floor of the
    difference in days. *)
Definition timedelta_days (e s : datetime) : Z :=
  (ordinal e - ordinal s) + (micros e - micros s) / US_PER_DAY.

(** [d.weekday()], Monday is 0 and Sunday is 6. *)
Definition weekday (d : datetime) : Z := (ordinal d + 6) mod 7.

(** Exceptions that escape the handlers. *)
Inductive exn : Type :=
  | EmployeeNotFound (employee_id : Z)
      (* ValueError(f"Employee not found with ID: {employee_id}") *)
  | InvalidIsoformat (s : string)
      (* ValueError raised by datetime.fromisoformat *)
  | DateOverflow.
      (* OverflowError("date value out of range") *)

Inductive result (A : Type) : Type :=
  | Returned (a : A)
  | Raised (e : exn).
Arguments Returned {A} a.
Arguments Raised {A} e.

(** [d + timedelta(days=1)]: raises [OverflowError] past [date.max]. *)
Definition add_one_day (d : datetime) : result datetime :=
  if decide (ordinal d + 1 ≤ MAXORDINAL)
  then Returned (mk_datetime (ordinal d + 1) (micros d))
  else Raised DateOverflow.

(** *** Calendar dates, as [datetime(year, month, day)] builds them *)

Definition is_leap (year : Z) : bool :=
  (year mod 4 =? 0) && (negb (year mod 100 =? 0) || (year mod 400 =? 0)).

Definition days_before_year (year : Z) : Z :=
  let y := year - 1 in y * 365 + y / 4 - y / 100 + y / 400.

Definition days_in_month (year month : Z) : Z :=
  if (month =? 2) && is_leap year then 29
  else nth (Z.to_nat month) [0; 31; 28; 31; 30; 31; 30; 31; 31; 30; 31; 30; 31] 0.

Definition days_before_month (year month : Z) : Z :=
  nth (Z.to_nat month) [0; 0; 31; 59; 90; 120; 151; 181; 212; 243; 273; 304; 334] 0
  + (if (2 <? month) && is_leap year then 1 else 0).

Definition ymd2ord (year month day : Z) : Z :=
  days_before_year year + days_before_month year month + day.

(** [datetime(year, month, day)]: a date at midnight. *)
Definition date_of (year month day : Z) : datetime :=
  mk_datetime (ymd2ord year month day) 0.

(** ** The loop of [make_vacation_request] that counts business days

    [for i in range(request_duration)]: the pair is
    [(business_day, current_date)]; the increment of [current_date] is
    executed in every iteration, also the last one. *)
Fixpoint count_loop (n : nat) (business_day : Z) (current_date : datetime)
  : result Z :=
  match n with
  | O => Returned business_day
  | S n' =>
      let business_day :=
        if decide (weekday current_date < 5) then business_day + 1
        else business_day in
      match add_one_day current_date with
      | Returned current_date => count_loop n' business_day current_date
      | Raised e => Raised e
      end
  end.

Definition business_days (start_date end_date : datetime) : result Z :=
  let request_duration := timedelta_days end_date start_date + 1 in
  count_loop (Z.to_nat request_duration) 0 start_date.

(** ** The data held by the service *)

(** A value of the [employees] dictionary. *)
Record employee : Type := mk_employee {
  name : string;
  remaining_vacation_days : Z
}.

(** A value of the [managers] dictionary. *)
Record manager : Type := mk_manager {
  manager_name : string
}.

(** An element of [vacation_requests].  The three dates are stored as
    [isoformat()] strings; on naive datetimes that rendering is fixed-width
    and zero-padded, so it is injective and the order of the strings is the
    order of the datetimes: the record keeps the datetime itself. *)
Record request : Type := mk_request {
  request_id : Z;
  applicant : Z;
  status : string;
  processed_by : option Z;
  request_submitted_at : datetime;
  vacation_start_date : datetime;
  vacation_end_date : datetime
}.

#[global] Instance employee_eq_dec : EqDecision employee.
Proof. solve_decision. Defined.

#[global] Instance request_eq_dec : EqDecision request.
Proof. solve_decision. Defined.

(** The module-level globals of [app.py]. *)
Record state : Type := mk_state {
  employees : gmap Z employee;
  managers : gmap Z manager;
  vacation_requests : list request
}.

Definition set_employees (es : gmap Z employee) (st : state) : state :=
  mk_state es (managers st) (vacation_requests st).

Definition set_vacation_requests (l : list request) (st : state) : state :=
  mk_state (employees st) (managers st) l.

(** The seed data at import time. *)
Definition initial_state : state := {|
  employees := {[ 1 := mk_employee "John Doe" 20;
                  2 := mk_employee "Jane Smith" 20 ]};
  managers := {[ 1 := mk_manager "Manager 1";
                 2 := mk_manager "Manager 2" ]};
  vacation_requests := []
|}.

(** ** What a handler hands back to Flask *)

(** The JSON documents the handlers build with [jsonify]. *)
#[local] Unset Elimination Schemes.
Inductive json : Type :=
  | JMessage (msg : string)            (* {"message": msg} *)
  | JError (msg : string)              (* {"error": msg} *)
  | JRemaining (days : Z)              (* {"remaining_vacation_days": days} *)
  | JRequest (r : request)             (* a request dictionary *)
  | JArray (items : list json).        (* a list or a tuple *)

#[local] Set Elimination Schemes.

(** A response is a body and an HTTP status code. *)
Definition response : Type := json * Z.

(** ** Handlers as state transformers that may raise *)

Definition M (A : Type) : Type := state → state * result A.

Definition ret {A} (a : A) : M A := λ st, (st, Returned a).

Definition bind {A B} (m : M A) (k : A → M B) : M B :=
  λ st, match m st with
        | (st', Returned a) => k a st'
        | (st', Raised e) => (st', Raised e)
        end.

Definition raise {A} (e : exn) : M A := λ st, (st, Raised e).

Definition get_state : M state := λ st, (st, Returned st).

Definition modify_state (f : state → state) : M unit :=
  λ st, (f st, Returned tt).

Definition lift_result {A} (r : result A) : M A := λ st, (st, r).

Declare Scope handler_scope.
Delimit Scope handler_scope with handler.
Notation "'let*' x ':=' m 'in' k" := (bind m (λ x, k))
  (at level 10, x pattern, m at level 100, k at level 200) : handler_scope.
Notation "m ';;' k" := (bind m (λ _, k))
  (at level 100, k at level 200, right associativity) : handler_scope.

Local Open Scope handler_scope.

(** ** Directory lookups *)

Definition get_employee (employee_id : Z) : M employee :=
  let* st := get_state in
  match employees st !! employee_id with
  | Some e => ret e
  | None => raise (EmployeeNotFound employee_id)
  end.

Definition is_manager (manager_id : Z) : M bool :=
  let* st := get_state in
  ret (bool_decide (is_Some (managers st !! manager_id))).

(** ** Employee endpoints *)

(** [request.args.get('status')]: the filter applies when the query
    parameter is present and not empty. *)
Definition filter_by_status (status_arg : option string) (l : list request)
  : list request :=
  match status_arg with
  | Some s => if decide (s = "") then l else filter (λ req, status req = s) l
  | None => l
  end.

Definition get_employee_requests (employee_id : Z) (status_arg : option string)
  : M response :=
  let* st := get_state in
  let employee_requests :=
    filter (λ req, applicant req = employee_id) (vacation_requests st) in
  let employee_requests := filter_by_status status_arg employee_requests in
  ret (JArray (JRequest <$> employee_requests), 200).

(** [get_employee] returns a dictionary with two keys, which is truthy, so
    the [else] branch of the source is never taken. *)
Definition get_remaining_vacation_days (employee_id : Z) : M response :=
  let* employee := get_employee employee_id in
  ret (JRemaining (remaining_vacation_days employee), 200).

(** The JSON body of the POST: a dictionary in which each of the two keys
    may be present. *)
Record request_data : Type := mk_request_data {
  data_vacation_start_date : option string;
  data_vacation_end_date : option string
}.

(** The JSON body of the PUT. *)
Record process_data : Type := mk_process_data {
  data_status : option string
}.

Section Handlers.

(** [datetime.fromisoformat]; [None] stands for its [ValueError]. *)
Variable fromisoformat : string → option datetime.

Definition parse_date (s : string) : M datetime :=
  match fromisoformat s with
  | Some d => ret d
  | None => raise (InvalidIsoformat s)
  end.

(** [make_vacation_request]; [now] is the value of [datetime.now()]. *)
Definition make_vacation_request
    (employee_id : Z) (data : option request_data) (now : datetime)
  : M response :=
  let* employee := get_employee employee_id in
  match data with
  | Some (mk_request_data (Some start_str) (Some end_str)) =>
      let* start_date := parse_date start_str in
      let* end_date := parse_date end_str in
      if decide (dt_le end_date start_date) then
        ret (JError "End date must be after start date", 400)
      else
        let* vacation_duration :=
          lift_result (business_days start_date end_date) in
        if decide (remaining_vacation_days employee < vacation_duration) then
          ret (JError "Not enough remaining vacation days", 400)
        else
          modify_state (λ st, set_employees
            (<[employee_id :=
                 mk_employee (name employee)
                   (remaining_vacation_days employee - vacation_duration)]>
               (employees st)) st) ;;
          modify_state (λ st, set_vacation_requests
            (vacation_requests st ++
               [ {| request_id := Z.of_nat (length (vacation_requests st)) + 1;
                    applicant := employee_id;
                    status := "pending";
                    processed_by := None;
                    request_submitted_at := now;
                    vacation_start_date := start_date;
                    vacation_end_date := end_date |} ]) st) ;;
          ret (JMessage "Vacation request submitted", 201)
  | _ => ret (JError "Invalid request data", 400)
  end.

End Handlers.

(** ** Manager endpoints *)

Definition get_manager_requests (manager_id : Z) (status_arg : option string)
  : M response :=
  let* authorized := is_manager manager_id in
  if negb authorized then ret (JError "Unauthorized", 401)
  else
    let* st := get_state in
    let manager_requests := filter_by_status status_arg (vacation_requests st) in
    ret (JArray (JRequest <$> manager_requests), 200).

(** The condition under which [get_overlapping_requests] reports the pair
    [(request1, request2)]. *)
Definition overlapping (request1 request2 : request) : Prop :=
  applicant request1 ≠ applicant request2 ∧
  status request1 = "approved" ∧
  status request2 = "approved" ∧
  ((dt_le (vacation_start_date request1) (vacation_start_date request2) ∧
    dt_le (vacation_start_date request2) (vacation_end_date request1)) ∨
   (dt_le (vacation_start_date request1) (vacation_end_date request2) ∧
    dt_le (vacation_end_date request2) (vacation_end_date request1)) ∨
   (dt_le (vacation_start_date request2) (vacation_start_date request1) ∧
    dt_le (vacation_start_date request1) (vacation_end_date request2)) ∨
   (dt_le (vacation_start_date request2) (vacation_end_date request1) ∧
    dt_le (vacation_end_date request1) (vacation_end_date request2))).

#[global] Instance overlapping_dec r1 r2 : Decision (overlapping r1 r2).
Proof. unfold overlapping. apply _. Defined.

(** The body of the inner loop: [i] and [j] are always valid indices of
    the list, so the lookups never fail. *)
Definition overlap_body (l : list request) (i : nat)
    (overlapping_requests : list (request * request)) (j : nat)
  : list (request * request) :=
  match l !! i, l !! j with
  | Some request1, Some request2 =>
      if decide (overlapping request1 request2)
      then overlapping_requests ++ [(request1, request2)]
      else overlapping_requests
  | _, _ => overlapping_requests
  end.

(** [for j in range(i + 1, len(vacation_requests))]. *)
Definition overlap_inner (l : list request)
    (overlapping_requests : list (request * request)) (i : nat)
  : list (request * request) :=
  foldl (overlap_body l i) overlapping_requests
        (seq (i + 1) (length l - (i + 1))).

(** [for i in range(len(vacation_requests))]. *)
Definition overlap_scan (l : list request) : list (request * request) :=
  foldl (overlap_inner l) [] (seq 0 (length l)).

(** A tuple of two requests is serialised as a two-element array. *)
Definition json_pair (p : request * request) : json :=
  JArray [JRequest p.1; JRequest p.2].

Definition get_overlapping_requests (manager_id : Z) : M response :=
  let* authorized := is_manager manager_id in
  if negb authorized then ret (JError "Unauthorized", 401)
  else
    let* st := get_state in
    let overlapping_requests := overlap_scan (vacation_requests st) in
    ret (JArray (json_pair <$> overlapping_requests), 200).

(** The search loop of [process_request]: the first request with the given
    id, together with its position in the list. *)
Definition find_request (rid : Z) (l : list request) : option (nat * request) :=
  list_find (λ req, request_id req = rid) l.

(** [request_to_process] aliases an element of [vacation_requests]; the
    two assignments update that element in place. *)
Definition mark_processed (new_status : string) (manager_id : Z) (req : request)
  : request :=
  {| request_id := request_id req;
     applicant := applicant req;
     status := new_status;
     processed_by := Some manager_id;
     request_submitted_at := request_submitted_at req;
     vacation_start_date := vacation_start_date req;
     vacation_end_date := vacation_end_date req |}.

Definition process_request
    (manager_id rid : Z) (data : option process_data) : M response :=
  let* authorized := is_manager manager_id in
  if negb authorized then ret (JError "Unauthorized", 401)
  else
    match data with
    | Some (mk_process_data (Some new_status)) =>
        if decide (new_status ∈ ["approved"; "rejected"]) then
          let* st := get_state in
          match find_request rid (vacation_requests st) with
          | None => ret (JError "Request not found", 404)
          | Some (i, request_to_process) =>
              if decide (status request_to_process = "pending") then
                modify_state (λ st, set_vacation_requests
                  (<[i := mark_processed new_status manager_id
                            request_to_process]> (vacation_requests st)) st) ;;
                ret (JMessage (String.append "Request has been " new_status), 200)
              else
                ret (JError "Request has already been processed", 400)
          end
        else ret (JError "Invalid status", 400)
    | _ => ret (JError "Invalid request data", 400)
    end.

(** ** Runs of the service *)

Section Runs.

Variable fromisoformat : string → option datetime.

(** One call of a mutating endpoint, whatever its outcome. *)
Inductive step (st : state) : state → Prop :=
  | step_submit employee_id data now :
      step st (make_vacation_request fromisoformat employee_id data now st).1
  | step_process manager_id rid data :
      step st (process_request manager_id rid data st).1.

(** The states the service can be in after any number of calls. *)
Inductive reachable_from (st0 : state) : state → Prop :=
  | reachable_refl : reachable_from st0 st0
  | reachable_step st st' :
      reachable_from st0 st → step st st' → reachable_from st0 st'.

Definition reachable : state → Prop := reachable_from initial_state.

End Runs.

(** ** A parser for the examples: [fromisoformat] on the form YYYY-MM-DD *)

Definition digit (c : Ascii.ascii) : option Z :=
  let n := Z.of_N (Ascii.N_of_ascii c) - 48 in
  if decide (0 ≤ n ≤ 9) then Some n else None.

Definition number (cs : list Ascii.ascii) : option Z :=
  foldl (λ acc c, match acc, digit c with
                  | Some n, Some d => Some (10 * n + d)
                  | _, _ => None
                  end) (Some 0) cs.

Definition date_fromisoformat (s : string) : option datetime :=
  match String.list_ascii_of_string s with
  | [y1; y2; y3; y4; s1; m1; m2; s2; d1; d2] =>
      match number [y1; y2; y3; y4], number [m1; m2], number [d1; d2] with
      | Some y, Some m, Some d =>
          if decide (s1 = "-"%char ∧ s2 = "-"%char ∧ 1 ≤ y ∧ 1 ≤ m ≤ 12 ∧
                     1 ≤ d ≤ days_in_month y m)
          then Some (date_of y m d) else None
      | _, _, _ => None
      end
  | _ => None
  end.

(** * The vocabulary of the properties *)

(** ** The weekdays of a span *)

(** The calendar days of the inclusive span from [start_date] to
    [end_date], each at midnight. *)
Definition calendar_days (start_date end_date : datetime) : list datetime :=
  (λ o, mk_datetime o 0) <$>
    seqZ (ordinal start_date) (ordinal end_date - ordinal start_date + 1).

(** The number of days of the inclusive span that fall on Monday to
    Friday, as the specification words it. *)
Definition weekdays_in_span (start_date end_date : datetime) : Z :=
  Z.of_nat (length (filter (λ d, weekday d < 5)
                           (calendar_days start_date end_date))).

(** ** Submissions *)

(** The request that a successful submission appends. *)
Definition new_request (st : state) (employee_id : Z)
    (start_date end_date now : datetime) : request :=
  {| request_id := Z.of_nat (length (vacation_requests st)) + 1;
     applicant := employee_id;
     status := "pending";
     processed_by := None;
     request_submitted_at := now;
     vacation_start_date := start_date;
     vacation_end_date := end_date |}.

(** The body is absent, or one of its two dates is. *)
Definition missing_date (data : option request_data) : Prop :=
  match data with
  | Some (mk_request_data (Some _) (Some _)) => False
  | _ => True
  end.

(** ** The kinds of failure

    The error taxonomy of the service, read off what a handler hands back:
    the exception it lets escape, or the status code and the message of its
    error response. *)
Inductive failure : Type :=
  | NotFound | InvalidInput | InsufficientBalance | Unauthorized | Conflict.

Definition failure_of (r : result response) : option failure :=
  match r with
  | Raised (EmployeeNotFound _) => Some NotFound
  | Raised (InvalidIsoformat _) => Some InvalidInput
  | Raised DateOverflow => None
  | Returned (JError msg, code) =>
      if decide (code = 404) then Some NotFound
      else if decide (code = 401) then Some Unauthorized
      else if decide (code = 400) then
        if decide (msg = "Not enough remaining vacation days")
        then Some InsufficientBalance
        else if decide (msg = "Request has already been processed")
        then Some Conflict
        else Some InvalidInput
      else None
  | Returned _ => None
  end.

(** A handler succeeded when it returned a 2xx response. *)
Definition succeeded (r : result response) : Prop :=
  match r with
  | Returned (_, code) => 200 ≤ code < 300
  | Raised _ => False
  end.

(** ** The list of requests *)

(** The request at position [k] has id [k + 1] and ends after it starts. *)
Definition ledger_ok (l : list request) : Prop :=
  ∀ k r, l !! k = Some r →
    request_id r = Z.of_nat k + 1 ∧
    dt_lt (vacation_start_date r) (vacation_end_date r).

(** ** Overlaps *)

(** What one iteration of the inner loop contributes. *)
Definition overlap_item (l : list request) (i j : nat)
  : list (request * request) :=
  match l !! i, l !! j with
  | Some request1, Some request2 =>
      if decide (overlapping request1 request2)
      then [(request1, request2)] else []
  | _, _ => []
  end.



(** The pair of requests at positions [p] is one the scan reports. *)
Definition overlapping_at (l : list request) (p : nat * nat) : Prop :=
  match l !! p.1, l !! p.2 with
  | Some request1, Some request2 => overlapping request1 request2
  | _, _ => False
  end.

#[global] Instance overlapping_at_dec l p : Decision (overlapping_at l p).
Proof. unfold overlapping_at. destruct (l !! p.1), (l !! p.2); apply _. Defined.



(** ** A run of the service

    Employee 1 asks for Monday 2024-03-04 to Friday 2024-03-08, employee 2
    for Wednesday 2024-03-06 to Tuesday 2024-03-12; manager 1 approves the
    first request and manager 2 the second. *)

Definition clock : datetime := mk_datetime (ymd2ord 2024 3 1) 32400000000.

Definition dates (start_str end_str : string) : option request_data :=
  Some (mk_request_data (Some start_str) (Some end_str)).

Definition with_status (s : string) : option process_data :=
  Some (mk_process_data (Some s)).

Definition run1 : state :=
  (make_vacation_request date_fromisoformat 1
     (dates "2024-03-04" "2024-03-08") clock initial_state).1.

Definition run2 : state :=
  (make_vacation_request date_fromisoformat 2
     (dates "2024-03-06" "2024-03-12") clock run1).1.

Definition run3 : state := (process_request 1 1 (with_status "approved") run2).1.

Definition run4 : state := (process_request 2 2 (with_status "approved") run3).1.

(** ** Further vocabulary *)

(** The three statuses a stored request can have. *)
Definition known_status (s : string) : Prop :=
  s ∈ ["pending"; "approved"; "rejected"].

(** What holds of every stored request: its status is one of the three,
    it has a processor exactly when it is no longer pending, the processor
    is a manager and the applicant an employee. *)
Definition request_ok (st : state) (r : request) : Prop :=
  known_status (status r) ∧
  (status r = "pending" ↔ processed_by r = None) ∧
  (∀ m, processed_by r = Some m → is_Some (managers st !! m)) ∧
  is_Some (employees st !! applicant r).

(** The business days a stored request was charged for: the count of the
    loop on its two dates. *)
Definition days_charged (r : request) : Z :=
  match business_days (vacation_start_date r) (vacation_end_date r) with
  | Returned n => n
  | Raised _ => 0
  end.

(** The days charged to an employee over a list of requests. *)
Definition charged_to (employee_id : Z) (l : list request) : Z :=
  foldr (λ r acc,
           (if decide (applicant r = employee_id) then days_charged r else 0)
           + acc) 0 l.

(** Each request paired with each of the later ones, the earlier request
    first. *)
Fixpoint later_pairs (l : list request) : list (request * request) :=
  match l with
  | [] => []
  | r :: l' => ((λ r', (r, r')) <$> l') ++ later_pairs l'
  end.

(** The requests an answer lists, when it is a list of requests. *)
Definition listed (r : result response) : option (list request) :=
  match r with
  | Returned (JArray items, _) =>
      mapM (λ j, match j with JRequest req => Some req | _ => None end) items
  | _ => None
  end.

(** * Properties *)

(** ** Evaluations *)

Example business_days_mon_fri :
  business_days (date_of 2024 3 4) (date_of 2024 3 8) = Returned 5.
Proof. reflexivity. Qed.

Example business_days_test_03 :
  business_days (date_of 2024 3 1) (date_of 2024 3 5) = Returned 3.
Proof. reflexivity. Qed.

Example business_days_last_day :
  business_days (date_of 9999 12 30) (date_of 9999 12 31) = Raised DateOverflow.
Proof. reflexivity. Qed.

(** With times of day the loop runs [(end - start).days + 1] times, which
    can be one less than the number of calendar days the span touches:
    Sunday 23:00 to Monday 01:00 is one iteration, on the Sunday. *)
Example business_days_time_of_day :
  business_days (mk_datetime (ymd2ord 2024 3 3) 82800000000)
                (mk_datetime (ymd2ord 2024 3 4) 3600000000) = Returned 0.
Proof. reflexivity. Qed.

Example date_fromisoformat_ok :
  date_fromisoformat "2024-03-04" = Some (mk_datetime 738949 0).
Proof. reflexivity. Qed.

Example date_fromisoformat_bad :
  date_fromisoformat "2024-02-30" = None ∧ date_fromisoformat "soon" = None.
Proof. split; reflexivity. Qed.

(** ** The order on datetimes *)





Lemma dt_lt_not_le a b : dt_lt a b ↔ ¬ dt_le b a.
Proof. unfold dt_lt, dt_le. lia. Qed.

(** ** Counting business days *)

Lemma count_loop_returns n : ∀ business_day current_date,
  ordinal current_date + Z.of_nat n ≤ MAXORDINAL →
  count_loop n business_day current_date =
    Returned (business_day +
      Z.of_nat (length (filter (λ d, weekday d < 5)
        ((λ o, mk_datetime o 0) <$>
           seqZ (ordinal current_date) (Z.of_nat n))))).
Proof.
  induction n as [|n IH]; intros b d Hmax.
  - simpl. f_equal. lia.
  - cbn [count_loop]. unfold add_one_day.
    destruct (decide (ordinal d + 1 ≤ MAXORDINAL)) as [_|?]; [|lia].
    rewrite IH by (simpl; lia). f_equal.
    rewrite (seqZ_cons (ordinal d) (Z.of_nat (S n))) by lia.
    rewrite fmap_cons, filter_cons.
    replace (Z.pred (Z.of_nat (S n))) with (Z.of_nat n) by lia.
    replace (Z.succ (ordinal d)) with (ordinal d + 1) by lia.
    change (weekday (mk_datetime (ordinal d) 0)) with (weekday d).
    cbn [ordinal].
    destruct (decide (weekday d < 5)); simpl length; lia.
Qed.

Lemma count_loop_overflows n : ∀ business_day current_date,
  ordinal current_date ≤ MAXORDINAL →
  MAXORDINAL < ordinal current_date + Z.of_nat n →
  count_loop n business_day current_date = Raised DateOverflow.
Proof.
  induction n as [|n IH]; intros b d Hle Hmax; [lia|].
  cbn [count_loop]. unfold add_one_day.
  destruct (decide (ordinal d + 1 ≤ MAXORDINAL)) as [?|?]; [|done].
  apply IH; simpl; lia.
Qed.

(** X22: between two dates at midnight, [end_date] after [start_date] and
    before the last day of the calendar, the loop counts the weekdays of
    the inclusive span. *)
Lemma business_days_correct start_date end_date :
  micros start_date = 0 → micros end_date = 0 →
  dt_lt start_date end_date →
  ordinal end_date < MAXORDINAL →
  business_days start_date end_date
    = Returned (weekdays_in_span start_date end_date).
Proof.
  intros Hs He Hlt Hmax. unfold business_days, timedelta_days.
  rewrite Hs, He. change ((0 - 0) / US_PER_DAY) with 0.
  assert (ordinal start_date < ordinal end_date)
    by (unfold dt_lt in Hlt; lia).
  rewrite count_loop_returns by lia.
  unfold weekdays_in_span, calendar_days. f_equal.
  rewrite Z2Nat.id by lia. rewrite Z.add_0_l, Z.add_0_r. reflexivity.
Qed.

(** Whenever the loop returns, it returns a count between 0 and the number
    of iterations. *)
Lemma count_loop_bounds n : ∀ business_day current_date k,
  count_loop n business_day current_date = Returned k →
  business_day ≤ k ≤ business_day + Z.of_nat n.
Proof.
  induction n as [|n IH]; intros b d k H.
  - simpl in H. injection H as <-. lia.
  - cbn [count_loop] in H. destruct (add_one_day d); [|done].
    apply IH in H. destruct (decide (weekday d < 5)); lia.
Qed.

(** X23: on a span of two dates at midnight that lies within Monday to
    Friday of one week the loop counts every day: the count is the length
    of the span. *)
Lemma business_days_within_week start_date end_date :
  micros start_date = 0 → micros end_date = 0 →
  dt_lt start_date end_date →
  ordinal end_date < MAXORDINAL →
  weekday end_date < 5 →
  ordinal end_date - ordinal start_date
    = weekday end_date - weekday start_date →
  business_days start_date end_date
    = Returned (ordinal end_date - ordinal start_date + 1).
Proof.
  intros Hs He Hlt Hmax Hwe Hspan.
  assert (Hord : ordinal start_date < ordinal end_date)
    by (unfold dt_lt in Hlt; lia).
  unfold business_days, timedelta_days. rewrite Hs, He.
  change ((0 - 0) / US_PER_DAY) with 0.
  assert (Hws : 0 ≤ weekday start_date)
    by (unfold weekday; apply Z.mod_pos_bound; lia).
  remember (ordinal end_date - ordinal start_date) as k eqn:Hk.
  assert (Hk4 : 1 ≤ k ≤ 4) by lia.
  assert (Hgen : ∀ n b d,
    ordinal d + Z.of_nat n ≤ MAXORDINAL →
    weekday d + Z.of_nat n ≤ 5 →
    count_loop n b d = Returned (b + Z.of_nat n)).
  { clear. induction n as [|n IH]; intros b d Hmax Hw.
    - simpl. f_equal. lia.
    - cbn [count_loop]. unfold add_one_day.
      destruct (decide (ordinal d + 1 ≤ MAXORDINAL)); [|lia].
      destruct (decide (weekday d < 5)); [|lia].
      rewrite IH.
      + f_equal. lia.
      + simpl. lia.
      + unfold weekday in *. simpl. Z.div_mod_to_equations. lia. }
  rewrite Hgen; [f_equal; lia | lia | lia].
Qed.

(** X24: on a span from a Saturday to the Sunday after it, both at
    midnight, the loop counts no day. *)
Lemma business_days_weekend start_date end_date :
  micros start_date = 0 → micros end_date = 0 →
  weekday start_date = 5 →
  ordinal end_date = ordinal start_date + 1 →
  ordinal end_date < MAXORDINAL →
  business_days start_date end_date = Returned 0.
Proof.
  intros Hs He Hsat Hnext Hmax.
  unfold business_days, timedelta_days. rewrite Hs, He, Hnext.
  replace (ordinal start_date + 1 - ordinal start_date + (0 - 0) / US_PER_DAY + 1)
    with 2 by (change ((0 - 0) / US_PER_DAY) with 0; lia).
  change (Z.to_nat 2) with 2%nat. cbn [count_loop]. unfold add_one_day.
  destruct (decide (ordinal start_date + 1 ≤ MAXORDINAL)); [|lia].
  cbn [ordinal].
  destruct (decide (ordinal start_date + 1 + 1 ≤ MAXORDINAL)); [|lia].
  destruct (decide (weekday start_date < 5)); [lia|].
  destruct (decide (weekday _ < 5)) as [Hw|]; [|done].
  unfold weekday in *. cbn [ordinal] in Hw. Z.div_mod_to_equations. lia.
Qed.

(** ** Running the handlers *)

Ltac run_handler :=
  unfold make_vacation_request, get_remaining_vacation_days,
    get_overlapping_requests, get_manager_requests, process_request,
    get_employee, is_manager, parse_date, lift_result,
    bind, ret, raise, get_state, modify_state; cbn beta iota.

Section Submit.

Variable fromisoformat : string → option datetime.

(** The three ways in which [make_vacation_request] ends once the employee
    is known and both dates are present and parse. *)
Lemma submit_parsed st employee_id e start_str end_str start_date end_date now :
  employees st !! employee_id = Some e →
  fromisoformat start_str = Some start_date →
  fromisoformat end_str = Some end_date →
  make_vacation_request fromisoformat employee_id
    (Some (mk_request_data (Some start_str) (Some end_str))) now st =
  if decide (dt_le end_date start_date) then
    (st, Returned (JError "End date must be after start date", 400))
  else
    match business_days start_date end_date with
    | Raised x => (st, Raised x)
    | Returned n =>
        if decide (remaining_vacation_days e < n) then
          (st, Returned (JError "Not enough remaining vacation days", 400))
        else
          ({| employees :=
                <[employee_id :=
                    mk_employee (name e) (remaining_vacation_days e - n)]>
                  (employees st);
              managers := managers st;
              vacation_requests :=
                vacation_requests st ++
                  [new_request st employee_id start_date end_date now] |},
           Returned (JMessage "Vacation request submitted", 201))
    end.
Proof.
  intros He Hs Hend. run_handler. rewrite He. cbn beta iota.
  rewrite Hs. cbn beta iota. rewrite Hend. cbn beta iota.
  destruct (decide (dt_le end_date start_date)) as [?|_]; [done|].
  destruct (business_days start_date end_date) as [k|x]; [|done].
  cbn beta iota. destruct (decide (remaining_vacation_days e < k)); done.
Qed.

End Submit.

Section SubmitClaims.

Variable fromisoformat : string → option datetime.

(** C1, with the answer the handler gives: for a known employee whose two
    dates are present and parse, with the end date strictly after the start
    date and a computed business-day count of at most the remaining
    vacation days, the submission succeeds with status 201: the balance of
    the employee becomes the balance before minus the count, exactly one
    request is appended at the end of the list, with id the previous length
    plus one, status pending, no processor and the given dates.  The
    handler answers with a message, not with the created record. *)
Theorem submit_success st employee_id e start_str end_str start_date end_date
    now n :
  employees st !! employee_id = Some e →
  fromisoformat start_str = Some start_date →
  fromisoformat end_str = Some end_date →
  dt_lt start_date end_date →
  business_days start_date end_date = Returned n →
  n ≤ remaining_vacation_days e →
  ∃ st' r,
    make_vacation_request fromisoformat employee_id
      (Some (mk_request_data (Some start_str) (Some end_str))) now st
      = (st', Returned (JMessage "Vacation request submitted", 201)) ∧
    remaining_vacation_days <$> employees st' !! employee_id
      = Some (remaining_vacation_days e - n) ∧
    vacation_requests st' = vacation_requests st ++ [r] ∧
    request_id r = Z.of_nat (length (vacation_requests st)) + 1 ∧
    applicant r = employee_id ∧
    status r = "pending" ∧
    processed_by r = None ∧
    request_submitted_at r = now ∧
    vacation_start_date r = start_date ∧
    vacation_end_date r = end_date.
Proof.
  intros He Hs Hend Hlt Hcount Hbal.
  eexists _, (new_request st employee_id start_date end_date now).
  split.
  - rewrite (submit_parsed _ _ _ _ _ _ _ _ _ He Hs Hend), Hcount.
    apply dt_lt_not_le in Hlt.
    destruct (decide (dt_le end_date start_date)); [done|].
    destruct (decide (remaining_vacation_days e < n)); [lia|]. reflexivity.
  - cbn. rewrite lookup_insert_eq. done.
Qed.

(** C5: for a known employee with parsed dates in the right order, a
    computed count above the balance ends the submission with the 400
    response [Not enough remaining vacation days] and changes nothing; a
    count up to the balance, the balance itself included, is accepted. *)
Theorem submit_insufficient_balance st employee_id e start_str end_str
    start_date end_date now n :
  employees st !! employee_id = Some e →
  fromisoformat start_str = Some start_date →
  fromisoformat end_str = Some end_date →
  dt_lt start_date end_date →
  business_days start_date end_date = Returned n →
  let run := make_vacation_request fromisoformat employee_id
    (Some (mk_request_data (Some start_str) (Some end_str))) now st in
  (remaining_vacation_days e < n →
     run = (st, Returned (JError "Not enough remaining vacation days", 400)) ∧
     failure_of run.2 = Some InsufficientBalance) ∧
  (n ≤ remaining_vacation_days e →
     run.2 = Returned (JMessage "Vacation request submitted", 201) ∧
     failure_of run.2 = None).
Proof.
  intros He Hs Hend Hlt Hcount run. subst run.
  rewrite (submit_parsed _ _ _ _ _ _ _ _ _ He Hs Hend), Hcount.
  apply dt_lt_not_le in Hlt.
  destruct (decide (dt_le end_date start_date)); [done|].
  destruct (decide (remaining_vacation_days e < n)); split; intros; try lia;
    done.
Qed.

(** C6, for an employee of the directory: a submission with a missing
    date ends with the 400 response [Invalid request data]; one with a date
    that does not parse ends with the [ValueError] of the parser; one whose
    end date is not after its start date ends with the 400 response
    [End date must be after start date], whatever the balance.  Each of
    them is an invalid-input failure and leaves the state as it was. *)
Theorem submit_invalid_input st employee_id e now :
  employees st !! employee_id = Some e →
  (∀ data, missing_date data →
     make_vacation_request fromisoformat employee_id data now st
       = (st, Returned (JError "Invalid request data", 400))) ∧
  (∀ start_str end_str, fromisoformat start_str = None →
     make_vacation_request fromisoformat employee_id
       (Some (mk_request_data (Some start_str) (Some end_str))) now st
       = (st, Raised (InvalidIsoformat start_str))) ∧
  (∀ start_str end_str, is_Some (fromisoformat start_str) →
     fromisoformat end_str = None →
     make_vacation_request fromisoformat employee_id
       (Some (mk_request_data (Some start_str) (Some end_str))) now st
       = (st, Raised (InvalidIsoformat end_str))) ∧
  (∀ start_str end_str start_date end_date,
     fromisoformat start_str = Some start_date →
     fromisoformat end_str = Some end_date →
     dt_le end_date start_date →
     make_vacation_request fromisoformat employee_id
       (Some (mk_request_data (Some start_str) (Some end_str))) now st
       = (st, Returned (JError "End date must be after start date", 400))) ∧
  failure_of (Returned (JError "Invalid request data", 400))
    = Some InvalidInput ∧
  (∀ s, failure_of (Raised (InvalidIsoformat s)) = Some InvalidInput) ∧
  failure_of (Returned (JError "End date must be after start date", 400))
    = Some InvalidInput.
Proof.
  intros He. repeat split.
  - intros data Hmiss. run_handler. rewrite He. cbn beta iota.
    destruct data as [[[?|] [?|]]|]; done.
  - intros s1 s2 Hs. run_handler. rewrite He. cbn beta iota. by rewrite Hs.
  - intros s1 s2 [d Hs] Hend. run_handler. rewrite He. cbn beta iota.
    rewrite Hs. cbn beta iota. by rewrite Hend.
  - intros s1 s2 d1 d2 Hs Hend Hle.
    rewrite (submit_parsed _ _ _ _ _ _ _ _ _ He Hs Hend).
    destruct (decide (dt_le d2 d1)); done.
Qed.

(** C7: for an employee id that is not in the directory, a submission and
    a balance query both end with the not-found error raised by
    [get_employee], and the state is as it was. *)
Theorem unknown_employee_not_found st employee_id data now :
  employees st !! employee_id = None →
  make_vacation_request fromisoformat employee_id data now st
    = (st, Raised (EmployeeNotFound employee_id)) ∧
  get_remaining_vacation_days employee_id st
    = (st, Raised (EmployeeNotFound employee_id)) ∧
  failure_of (Raised (EmployeeNotFound employee_id)) = Some NotFound.
Proof.
  intros Hnone. repeat split; run_handler; by rewrite Hnone.
Qed.

End SubmitClaims.

(** ** The two shapes of a call *)

Ltac no_change := left; split; [reflexivity | cbn; first [tauto | lia]].

Section Cases.

Variable fromisoformat : string → option datetime.

(** A submission either changes nothing and does not succeed, or it is the
    accepted submission of a known employee. *)
Lemma submit_cases st employee_id data now :
  let run := make_vacation_request fromisoformat employee_id data now st in
  (run.1 = st ∧ ¬ succeeded run.2) ∨
  (∃ e start_date end_date n,
     employees st !! employee_id = Some e ∧
     dt_lt start_date end_date ∧
     business_days start_date end_date = Returned n ∧
     0 ≤ n ≤ remaining_vacation_days e ∧
     run = ({| employees :=
                 <[employee_id :=
                     mk_employee (name e) (remaining_vacation_days e - n)]>
                   (employees st);
               managers := managers st;
               vacation_requests :=
                 vacation_requests st ++
                   [new_request st employee_id start_date end_date now] |},
            Returned (JMessage "Vacation request submitted", 201))).
Proof.
  intros run. subst run.
  destruct (employees st !! employee_id) as [e|] eqn:He; cycle 1.
  { run_handler. rewrite He. no_change. }
  destruct data as [[[s1|] [s2|]]|];
    try (run_handler; rewrite He; no_change).
  destruct (fromisoformat s1) as [d1|] eqn:Hs; cycle 1.
  { run_handler. rewrite He. cbn beta iota. rewrite Hs. no_change. }
  destruct (fromisoformat s2) as [d2|] eqn:Hend; cycle 1.
  { run_handler. rewrite He. cbn beta iota. rewrite Hs. cbn beta iota.
    rewrite Hend. no_change. }
  rewrite (submit_parsed _ _ _ _ _ _ _ _ _ He Hs Hend).
  destruct (decide (dt_le d2 d1)) as [|Hlt]; [no_change|].
  destruct (business_days d1 d2) as [n|x] eqn:Hcount; [|no_change].
  destruct (decide (remaining_vacation_days e < n)); [no_change|].
  right. exists e, d1, d2, n. apply dt_lt_not_le in Hlt.
  apply count_loop_bounds in Hcount as Hn. repeat split; try done; lia.
Qed.

(** A call of [process_request] either changes nothing and does not
    succeed, or it marks the first pending request with the given id. *)
Lemma process_cases st manager_id rid data :
  let run := process_request manager_id rid data st in
  (run.1 = st ∧ ¬ succeeded run.2) ∨
  (∃ i r new_status,
     data = Some (mk_process_data (Some new_status)) ∧
     is_Some (managers st !! manager_id) ∧
     new_status ∈ ["approved"; "rejected"] ∧
     find_request rid (vacation_requests st) = Some (i, r) ∧
     status r = "pending" ∧
     run = (set_vacation_requests
              (<[i := mark_processed new_status manager_id r]>
                 (vacation_requests st)) st,
            Returned (JMessage (String.append "Request has been " new_status),
                      200))).
Proof.
  intros run. subst run. run_handler.
  destruct (bool_decide (is_Some (managers st !! manager_id))) eqn:Hm;
    cbn [negb]; cbn beta iota; [|no_change].
  apply bool_decide_eq_true in Hm.
  destruct data as [[[new_status|]]|]; try no_change.
  destruct (decide (new_status ∈ ["approved"; "rejected"])) as [Hin|];
    cbn beta iota; [|no_change].
  destruct (find_request rid (vacation_requests st)) as [[i r]|] eqn:Hfind;
    cbn beta iota; [|no_change].
  destruct (decide (status r = "pending")) as [Hp|]; [|no_change].
  right. exists i, r, new_status. done.
Qed.

End Cases.

(** ** Invariants of the list of requests *)

Lemma ledger_ok_find l k r :
  ledger_ok l → l !! k = Some r → find_request (request_id r) l = Some (k, r).
Proof.
  intros Hok Hk. unfold find_request. apply list_find_Some.
  split_and!; [done..|].
  intros j rj Hj Hlt Heq.
  apply Hok in Hk as [Hk _]. apply Hok in Hj as [Hj _]. lia.
Qed.

Lemma find_request_Some rid l i r :
  find_request rid l = Some (i, r) →
  l !! i = Some r ∧ request_id r = rid ∧
  ∀ j rj, l !! j = Some rj → (j < i)%nat → request_id rj ≠ rid.
Proof. unfold find_request. intros H. by apply list_find_Some in H. Qed.

Section Invariants.

Variable fromisoformat : string → option datetime.

Lemma step_cases st st' :
  step fromisoformat st st' →
  st' = st ∨
  (∃ r, employees st' !! applicant r ≠ None ∧
        managers st' = managers st ∧
        vacation_requests st' = vacation_requests st ++ [r] ∧
        request_id r = Z.of_nat (length (vacation_requests st)) + 1 ∧
        dt_lt (vacation_start_date r) (vacation_end_date r)) ∨
  (∃ i r new_status manager_id,
        employees st' = employees st ∧
        managers st' = managers st ∧
        vacation_requests st !! i = Some r ∧
        vacation_requests st' =
          <[i := mark_processed new_status manager_id r]>
            (vacation_requests st)).
Proof.
  intros [employee_id data now | manager_id rid data].
  - destruct (submit_cases fromisoformat st employee_id data now)
      as [[-> _] | (e & d1 & d2 & n & He & Hlt & Hcount & Hn & ->)];
      [by left|].
    right; left. eexists (new_request st employee_id d1 d2 now). cbn.
    rewrite lookup_insert_eq. done.
  - destruct (process_cases st manager_id rid data)
      as [[-> _] | (i & r & s & _ & _ & _ & Hfind & _ & ->)]; [by left|].
    right; right. exists i, r, s, manager_id. cbn.
    apply find_request_Some in Hfind as (? & _). done.
Qed.

Lemma step_ledger_ok st st' :
  step fromisoformat st st' →
  ledger_ok (vacation_requests st) → ledger_ok (vacation_requests st').
Proof.
  intros Hstep Hok.
  destruct (step_cases _ _ Hstep)
    as [-> | [(r & _ & _ & -> & Hid & Hlt)
             | (i & r & s & m & _ & _ & Hi & ->)]]; [done| |].
  - intros k r' Hk. apply lookup_app_Some in Hk as [Hk | [Hge Hk]].
    + by apply Hok.
    + apply list_lookup_singleton_Some in Hk as [Hk0 <-].
      split; [lia | done].
  - intros k r' Hk.
    destruct (decide (k = i)) as [-> | Hne].
    + rewrite list_lookup_insert_eq in Hk
        by (by eapply lookup_lt_Some).
      injection Hk as <-. apply Hok in Hi. done.
    + rewrite list_lookup_insert_ne in Hk by done. by apply Hok.
Qed.

Lemma reachable_ledger_ok st :
  reachable fromisoformat st → ledger_ok (vacation_requests st).
Proof.
  induction 1 as [|st st' _ IH Hstep].
  - intros k r Hk. done.
  - by eapply step_ledger_ok.
Qed.

(** A call keeps every request at its position, with its id. *)
Lemma step_keeps_requests st st' :
  step fromisoformat st st' →
  ∀ k r, vacation_requests st !! k = Some r →
    ∃ r', vacation_requests st' !! k = Some r' ∧ request_id r' = request_id r.
Proof.
  intros Hstep k r Hk.
  destruct (step_cases _ _ Hstep)
    as [-> | [(r0 & _ & _ & -> & _)
             | (i & r0 & s & m & _ & _ & Hi & ->)]].
  - by exists r.
  - exists r. split; [|done]. by apply lookup_app_l_Some.
  - destruct (decide (k = i)) as [-> | Hne].
    + exists (mark_processed s m r0).
      rewrite list_lookup_insert_eq by (by eapply lookup_lt_Some).
      split; [done|]. cbn. congruence.
    + exists r. by rewrite list_lookup_insert_ne.
Qed.

Lemma reachable_from_keeps_requests st st' :
  reachable_from fromisoformat st st' →
  ∀ k r, vacation_requests st !! k = Some r →
    ∃ r', vacation_requests st' !! k = Some r' ∧ request_id r' = request_id r.
Proof.
  induction 1 as [|st1 st2 _ IH Hstep]; intros k r Hk.
  - by exists r.
  - destruct (IH k r Hk) as (r1 & Hk1 & Hid1).
    destruct (step_keeps_requests _ _ Hstep k r1 Hk1) as (r2 & Hk2 & Hid2).
    exists r2. split; [done | congruence].
Qed.

End Invariants.

Section LifecycleClaims.

Variable fromisoformat : string → option datetime.

(** C10: a successful submission of employee [employee_id] leaves the
    manager directory, every other employee and every request already in
    the list as they were (field for field); it lowers the balance of the
    employee, keeps the name, and appends one request. *)
Theorem submit_frame st employee_id data now :
  let run := make_vacation_request fromisoformat employee_id data now st in
  succeeded run.2 →
  managers run.1 = managers st ∧
  (∀ other, other ≠ employee_id →
     employees run.1 !! other = employees st !! other) ∧
  (∃ e e', employees st !! employee_id = Some e ∧
           employees run.1 !! employee_id = Some e' ∧
           name e' = name e ∧
           remaining_vacation_days e' ≤ remaining_vacation_days e) ∧
  (∃ r, vacation_requests run.1 = vacation_requests st ++ [r]) ∧
  (∀ k r, vacation_requests st !! k = Some r →
          vacation_requests run.1 !! k = Some r).
Proof.
  intros run Hok. subst run.
  destruct (submit_cases fromisoformat st employee_id data now)
    as [[_ Hfail] | (e & d1 & d2 & n & He & Hlt & Hcount & Hn & Hrun)];
    [done|].
  rewrite Hrun. cbn. split_and!.
  - done.
  - intros other Hne. by rewrite lookup_insert_ne.
  - eexists e, _. rewrite lookup_insert_eq. split_and!; [done..|cbn; lia].
  - by eexists.
  - intros k r Hk. by apply lookup_app_l_Some.
Qed.

(** C8: a successful call of [process_request] leaves the employees (and
    so every balance) and the managers as they were; in the list it
    changes one request, the one with the given id, and of that request
    only the status and the processor. *)
Theorem process_frame st manager_id rid data :
  let run := process_request manager_id rid data st in
  succeeded run.2 →
  employees run.1 = employees st ∧
  managers run.1 = managers st ∧
  length (vacation_requests run.1) = length (vacation_requests st) ∧
  ∃ i r r',
    vacation_requests st !! i = Some r ∧
    vacation_requests run.1 !! i = Some r' ∧
    (∀ j, j ≠ i → vacation_requests run.1 !! j = vacation_requests st !! j) ∧
    request_id r = rid ∧
    request_id r' = request_id r ∧
    applicant r' = applicant r ∧
    request_submitted_at r' = request_submitted_at r ∧
    vacation_start_date r' = vacation_start_date r ∧
    vacation_end_date r' = vacation_end_date r ∧
    processed_by r' = Some manager_id ∧
    data = Some (mk_process_data (Some (status r'))).
Proof.
  intros run Hok. subst run.
  destruct (process_cases st manager_id rid data)
    as [[_ Hfail] | (i & r & s & Hdata & Hm & Hs & Hfind & Hp & Hrun)];
    [done|].
  rewrite Hrun. cbn.
  apply find_request_Some in Hfind as (Hi & Hid & _).
  split_and!; [done | done | by rewrite length_insert |].
  exists i, r, (mark_processed s manager_id r).
  split_and!; try done.
  - apply list_lookup_insert_eq. by eapply lookup_lt_Some.
  - intros j Hne. by rewrite list_lookup_insert_ne.
Qed.

(** C4: in a reachable state, processing a request that is no longer
    pending, by an authorised manager and with a valid status, ends with
    the 400 response [Request has already been processed] and changes
    nothing; in particular, in any state, a second call for the request
    that a successful call has just processed ends that way. *)
Theorem process_conflict st manager_id new_status :
  is_Some (managers st !! manager_id) →
  new_status ∈ ["approved"; "rejected"] →
  (∀ r, reachable fromisoformat st → r ∈ vacation_requests st →
        status r ≠ "pending" →
        process_request manager_id (request_id r)
          (Some (mk_process_data (Some new_status))) st
        = (st, Returned (JError "Request has already been processed", 400))) ∧
  (∀ st0 manager_id0 rid data0,
        succeeded (process_request manager_id0 rid data0 st0).2 →
        st = (process_request manager_id0 rid data0 st0).1 →
        process_request manager_id rid
          (Some (mk_process_data (Some new_status))) st
        = (st, Returned (JError "Request has already been processed", 400))) ∧
  failure_of (Returned (JError "Request has already been processed", 400))
    = Some Conflict.
Proof.
  intros Hm Hs.
  assert (Hgen : ∀ rid i r,
    find_request rid (vacation_requests st) = Some (i, r) →
    status r ≠ "pending" →
    process_request manager_id rid
      (Some (mk_process_data (Some new_status))) st
    = (st, Returned (JError "Request has already been processed", 400))).
  { intros rid i r Hfind Hp. run_handler.
    rewrite (bool_decide_eq_true_2 _ Hm). cbn [negb]. cbn beta iota.
    destruct (decide (new_status ∈ ["approved"; "rejected"])); [|done].
    cbn beta iota. rewrite Hfind. cbn beta iota.
    destruct (decide (status r = "pending")); done. }
  split_and!; [| |done].
  - intros r Hreach Hin Hp.
    apply list_elem_of_lookup in Hin as [k Hk].
    apply reachable_ledger_ok in Hreach.
    eapply Hgen; [by apply ledger_ok_find|done].
  - intros st0 m0 rid data0 Hok Hst.
    destruct (process_cases st0 m0 rid data0)
      as [[_ Hfail] | (i & r & s & Hdata & Hm0 & Hs0 & Hfind & Hp & Hrun)];
      [done|].
    rewrite Hrun in Hst. cbn in Hst.
    apply find_request_Some in Hfind as (Hi & Hid & Hbefore).
    apply (Hgen rid i (mark_processed s m0 r)).
    + subst st. cbn. unfold find_request. apply list_find_Some.
      split_and!.
      * apply list_lookup_insert_eq. by eapply lookup_lt_Some.
      * done.
      * intros j rj Hj Hlt. rewrite list_lookup_insert_ne in Hj by lia.
        by eapply Hbefore.
    + cbn. intros ->.
      apply list_elem_of_In in Hs0. cbn in Hs0.
      destruct Hs0 as [? | [? | []]]; done.
Qed.

(** C9: in every state reachable from the seeded state by submissions and
    processing calls, the request at position [k] (counted from 1) has id
    [k], so the ids are pairwise distinct and increase along the list; and
    whatever calls follow, the list does not get shorter and every request
    stays at its position with its id. *)
Theorem request_ids_sequential st :
  reachable fromisoformat st →
  (∀ k r, vacation_requests st !! k = Some r →
          request_id r = Z.of_nat k + 1) ∧
  NoDup (request_id <$> vacation_requests st) ∧
  (∀ i j ri rj, vacation_requests st !! i = Some ri →
                vacation_requests st !! j = Some rj →
                (i < j)%nat → request_id ri < request_id rj) ∧
  (∀ st', reachable_from fromisoformat st st' →
          (length (vacation_requests st) ≤ length (vacation_requests st'))%nat ∧
          ∀ k r, vacation_requests st !! k = Some r →
            ∃ r', vacation_requests st' !! k = Some r' ∧
                  request_id r' = request_id r).
Proof.
  intros Hreach. apply reachable_ledger_ok in Hreach as Hok.
  split_and!.
  - intros k r Hk. by apply Hok.
  - apply NoDup_alt. intros i j x Hi Hj.
    apply list_lookup_fmap_Some in Hi as (ri & -> & Hi).
    apply list_lookup_fmap_Some in Hj as (rj & Hx & Hj).
    apply Hok in Hi as [Hi _]. apply Hok in Hj as [Hj _]. lia.
  - intros i j ri rj Hi Hj Hlt.
    apply Hok in Hi as [Hi _]. apply Hok in Hj as [Hj _]. lia.
  - intros st' Hlater.
    pose proof (reachable_from_keeps_requests _ _ _ Hlater) as Hkeep.
    split; [|done].
    destruct (vacation_requests st) as [|r0 l0] eqn:Hl using rev_ind;
      [simpl; lia|].
    destruct (Hkeep (length l0) r0) as (r' & Hr' & _).
    { by rewrite lookup_app_r, Nat.sub_diag. }
    apply lookup_lt_Some in Hr'. rewrite length_app. simpl. lia.
Qed.

End LifecycleClaims.

(** ** The overlap scan *)

Lemma overlap_body_item l i acc j :
  overlap_body l i acc j = acc ++ overlap_item l i j.
Proof.
  unfold overlap_body, overlap_item.
  destruct (l !! i) as [r1|], (l !! j) as [r2|];
    try destruct (decide (overlapping r1 r2)); by rewrite ?app_nil_r.
Qed.

Lemma overlap_inner_bind l acc i :
  overlap_inner l acc i
    = acc ++ (seq (i + 1) (length l - (i + 1)) ≫= overlap_item l i).
Proof.
  unfold overlap_inner. generalize (seq (i + 1) (length l - (i + 1))).
  intros js. revert acc. induction js as [|j js IH]; intros acc.
  - by rewrite app_nil_r.
  - cbn [foldl]. rewrite IH, overlap_body_item, bind_cons. by rewrite <-app_assoc.
Qed.

Lemma overlap_scan_bind l :
  overlap_scan l
    = seq 0 (length l) ≫= λ i,
        seq (i + 1) (length l - (i + 1)) ≫= overlap_item l i.
Proof.
  unfold overlap_scan. rewrite <-(app_nil_l (_ ≫= _)).
  generalize (@nil (request * request)). generalize (seq 0 (length l)).
  intros idxs. induction idxs as [|i idxs IH]; intros acc.
  - by rewrite app_nil_r.
  - cbn [foldl]. rewrite IH, overlap_inner_bind, bind_cons.
    by rewrite <-app_assoc.
Qed.









Section OverlapClaim.

Variable fromisoformat : string → option datetime.


End OverlapClaim.

(** * The run, and the theorems on it *)

Lemma run4_reachable : reachable date_fromisoformat run4.
Proof.
  unfold reachable.
  apply (reachable_step _ _ run3); [|apply step_process].
  apply (reachable_step _ _ run2); [|apply step_process].
  apply (reachable_step _ _ run1); [|apply step_submit].
  apply (reachable_step _ _ initial_state); [|apply step_submit].
  apply reachable_refl.
Defined.

Lemma run3_reachable : reachable date_fromisoformat run3.
Proof.
  unfold reachable.
  apply (reachable_step _ _ run2); [|apply step_process].
  apply (reachable_step _ _ run1); [|apply step_submit].
  apply (reachable_step _ _ initial_state); [|apply step_submit].
  apply reachable_refl.
Defined.

Example run1_balance :
  remaining_vacation_days <$> employees run1 !! 1 = Some 15.
Proof. reflexivity. Qed.

Example run4_overlaps :
  ∃ r1 r2, vacation_requests run4 = [r1; r2] ∧
    get_overlapping_requests 1 run4
      = (run4, Returned (JArray [JArray [JRequest r1; JRequest r2]], 200)).
Proof. eexists _, _. split; reflexivity. Qed.

(** * Instances of the theorems on that run *)

Lemma submit_success_witness :
  ∃ st' r,
    make_vacation_request date_fromisoformat 1
      (Some (mk_request_data (Some "2024-03-04") (Some "2024-03-08")))
      clock initial_state
      = (st', Returned (JMessage "Vacation request submitted", 201)) ∧
    remaining_vacation_days <$> employees st' !! 1 = Some (20 - 5) ∧
    vacation_requests st' = vacation_requests initial_state ++ [r] ∧
    request_id r = Z.of_nat (length (vacation_requests initial_state)) + 1 ∧
    applicant r = 1 ∧
    status r = "pending" ∧
    processed_by r = None ∧
    request_submitted_at r = clock ∧
    vacation_start_date r = date_of 2024 3 4 ∧
    vacation_end_date r = date_of 2024 3 8.
Proof.
  apply (submit_success date_fromisoformat initial_state 1
           (mk_employee "John Doe" 20) "2024-03-04" "2024-03-08"
           (date_of 2024 3 4) (date_of 2024 3 8) clock 5).
  - reflexivity.
  - reflexivity.
  - reflexivity.
  - compute_done.
  - reflexivity.
  - simpl. lia.
Defined.

(** The submission of the run fulfils every condition of C1 and is
    answered with a message: the body of the response is not the request
    that was appended, nor any request. *)
Lemma submit_returns_message_not_record :
  let run := make_vacation_request date_fromisoformat 1
               (dates "2024-03-04" "2024-03-08") clock initial_state in
  employees initial_state !! 1 = Some (mk_employee "John Doe" 20) ∧
  date_fromisoformat "2024-03-04" = Some (date_of 2024 3 4) ∧
  date_fromisoformat "2024-03-08" = Some (date_of 2024 3 8) ∧
  dt_lt (date_of 2024 3 4) (date_of 2024 3 8) ∧
  business_days (date_of 2024 3 4) (date_of 2024 3 8) = Returned 5 ∧
  run.2 = Returned (JMessage "Vacation request submitted", 201) ∧
  ¬ ∃ r code, run.2 = Returned (JRequest r, code).
Proof.
  cbv zeta. split_and!; try reflexivity.
  - compute_done.
  - intros (r & code & H). vm_compute in H. discriminate H.
Qed.

(** C2 at its failing input: from Thursday 9999-12-30 to Friday
    9999-12-31, the last day of the calendar, the span holds two weekdays,
    but the increment that ends the last iteration of the loop leaves the
    calendar: the count is not produced and the submission ends with the
    overflow error, the state unchanged. *)
Theorem business_days_last_calendar_day :
  dt_lt (date_of 9999 12 30) (date_of 9999 12 31) ∧
  weekdays_in_span (date_of 9999 12 30) (date_of 9999 12 31) = 2 ∧
  business_days (date_of 9999 12 30) (date_of 9999 12 31)
    = Raised DateOverflow ∧
  make_vacation_request date_fromisoformat 1
    (dates "9999-12-30" "9999-12-31") clock initial_state
    = (initial_state, Raised DateOverflow).
Proof.
  split_and!; try reflexivity. compute_done.
Qed.

Lemma submit_insufficient_balance_witness :
  make_vacation_request date_fromisoformat 1
    (Some (mk_request_data (Some "2024-03-04") (Some "2024-04-12")))
    clock run1
  = (run1, Returned (JError "Not enough remaining vacation days", 400)).
Proof.
  apply (submit_insufficient_balance date_fromisoformat run1 1
           (mk_employee "John Doe" 15) "2024-03-04" "2024-04-12"
           (date_of 2024 3 4) (date_of 2024 4 12) clock 30).
  - reflexivity.
  - reflexivity.
  - reflexivity.
  - compute_done.
  - reflexivity.
  - simpl. lia.
Defined.

Lemma submit_invalid_input_witness :
  make_vacation_request date_fromisoformat 1 None clock initial_state
    = (initial_state, Returned (JError "Invalid request data", 400)) ∧
  make_vacation_request date_fromisoformat 1
    (Some (mk_request_data (Some "next week") (Some "2024-03-08")))
    clock initial_state
    = (initial_state, Raised (InvalidIsoformat "next week")) ∧
  make_vacation_request date_fromisoformat 1
    (Some (mk_request_data (Some "2024-03-08") (Some "2024-03-04")))
    clock initial_state
    = (initial_state,
       Returned (JError "End date must be after start date", 400)).
Proof.
  destruct (submit_invalid_input date_fromisoformat initial_state 1
              (mk_employee "John Doe" 20) clock)
    as (Hmissing & Hstart & _ & Horder & _); [reflexivity|].
  split_and!.
  - apply Hmissing. exact I.
  - apply Hstart. reflexivity.
  - apply (Horder _ _ (date_of 2024 3 8) (date_of 2024 3 4));
      [reflexivity | reflexivity | compute_done].
Defined.

(** For an id that is not in the directory the submission with the end
    date before the start date, and the one without dates, end with the
    not-found error: not an invalid-input failure. *)
Lemma submit_unknown_employee_not_invalid_input :
  employees initial_state !! 99 = None ∧
  dt_le (date_of 2024 3 4) (date_of 2024 3 8) ∧
  (make_vacation_request date_fromisoformat 99
     (dates "2024-03-08" "2024-03-04") clock initial_state).2
    = Raised (EmployeeNotFound 99) ∧
  (make_vacation_request date_fromisoformat 99 None clock initial_state).2
    = Raised (EmployeeNotFound 99) ∧
  failure_of (Raised (EmployeeNotFound 99)) ≠ Some InvalidInput.
Proof.
  split_and!; try reflexivity; [compute_done | discriminate].
Qed.

Lemma unknown_employee_not_found_witness :
  make_vacation_request date_fromisoformat 99
    (dates "2024-03-04" "2024-03-08") clock run4
    = (run4, Raised (EmployeeNotFound 99)) ∧
  get_remaining_vacation_days 99 run4 = (run4, Raised (EmployeeNotFound 99)) ∧
  failure_of (Raised (EmployeeNotFound 99)) = Some NotFound.
Proof.
  apply (unknown_employee_not_found date_fromisoformat run4 99). reflexivity.
Defined.

Lemma submit_frame_witness :
  managers run2 = managers run1 ∧
  (∀ other, other ≠ 2 → employees run2 !! other = employees run1 !! other) ∧
  (∃ e e', employees run1 !! 2 = Some e ∧
           employees run2 !! 2 = Some e' ∧
           name e' = name e ∧
           remaining_vacation_days e' ≤ remaining_vacation_days e) ∧
  (∃ r, vacation_requests run2 = vacation_requests run1 ++ [r]) ∧
  (∀ k r, vacation_requests run1 !! k = Some r →
          vacation_requests run2 !! k = Some r).
Proof.
  apply (submit_frame date_fromisoformat run1 2
           (dates "2024-03-06" "2024-03-12") clock).
  vm_compute. split; [discriminate | reflexivity].
Defined.

Lemma process_frame_witness :
  employees run3 = employees run2 ∧
  managers run3 = managers run2 ∧
  length (vacation_requests run3) = length (vacation_requests run2) ∧
  ∃ i r r',
    vacation_requests run2 !! i = Some r ∧
    vacation_requests run3 !! i = Some r' ∧
    (∀ j, j ≠ i → vacation_requests run3 !! j = vacation_requests run2 !! j) ∧
    request_id r = 1 ∧
    request_id r' = request_id r ∧
    applicant r' = applicant r ∧
    request_submitted_at r' = request_submitted_at r ∧
    vacation_start_date r' = vacation_start_date r ∧
    vacation_end_date r' = vacation_end_date r ∧
    processed_by r' = Some 1 ∧
    with_status "approved" = Some (mk_process_data (Some (status r'))).
Proof.
  apply (process_frame run2 1 1 (with_status "approved")).
  vm_compute. split; [discriminate | reflexivity].
Defined.

Lemma process_conflict_witness :
  (∀ r, r ∈ vacation_requests run3 → status r ≠ "pending" →
        process_request 2 (request_id r) (with_status "rejected") run3
        = (run3,
           Returned (JError "Request has already been processed", 400))) ∧
  process_request 2 1 (with_status "rejected") run3
    = (run3, Returned (JError "Request has already been processed", 400)).
Proof.
  destruct (process_conflict date_fromisoformat run3 2 "rejected")
    as (Hany & Htwice & _).
  - by eexists.
  - apply list_elem_of_In. simpl. tauto.
  - split.
    + intros r. apply Hany, run3_reachable.
    + apply (Htwice run2 1 1 (with_status "approved")).
      * vm_compute. split; [discriminate | reflexivity].
      * reflexivity.
Defined.

Lemma request_ids_sequential_witness :
  (∀ k r, vacation_requests run4 !! k = Some r →
          request_id r = Z.of_nat k + 1) ∧
  NoDup (request_id <$> vacation_requests run4) ∧
  (∀ i j ri rj, vacation_requests run4 !! i = Some ri →
                vacation_requests run4 !! j = Some rj →
                (i < j)%nat → request_id ri < request_id rj) ∧
  (∀ st', reachable_from date_fromisoformat run4 st' →
          (length (vacation_requests run4) ≤ length (vacation_requests st'))%nat ∧
          ∀ k r, vacation_requests run4 !! k = Some r →
            ∃ r', vacation_requests st' !! k = Some r' ∧
                  request_id r' = request_id r).
Proof.
  apply (request_ids_sequential date_fromisoformat run4), run4_reachable.
Defined.


(** * Further properties of the handlers *)

(** ** The answers of [process_request] *)

(** X1: an id that is not a manager is answered 401 [Unauthorized] by
    [process_request] and by [get_manager_requests], whatever the request
    id, the body or the filter, and nothing changes. *)
Theorem manager_endpoints_unauthorized st manager_id :
  managers st !! manager_id = None →
  (∀ rid data,
     process_request manager_id rid data st
       = (st, Returned (JError "Unauthorized", 401))) ∧
  (∀ status_arg,
     get_manager_requests manager_id status_arg st
       = (st, Returned (JError "Unauthorized", 401))).
Proof.
  intros Hnone. split; intros; run_handler; rewrite Hnone;
    rewrite bool_decide_eq_false_2 by (by intros [? ?]); done.
Qed.

(** X2: for a manager, a body without a status is answered 400
    [Invalid request data], and a status other than approved and rejected
    (pending included) 400 [Invalid status].  The body is checked before
    the request is looked up, so the answer is the same for an id that no
    request has; nothing changes. *)
Theorem process_invalid_body st manager_id rid :
  is_Some (managers st !! manager_id) →
  process_request manager_id rid None st
    = (st, Returned (JError "Invalid request data", 400)) ∧
  process_request manager_id rid (Some (mk_process_data None)) st
    = (st, Returned (JError "Invalid request data", 400)) ∧
  (∀ s, s ≠ "approved" → s ≠ "rejected" →
     process_request manager_id rid (Some (mk_process_data (Some s))) st
       = (st, Returned (JError "Invalid status", 400))).
Proof.
  intros Hm. split_and!; [| |intros s Ha Hr]; run_handler;
    rewrite (bool_decide_eq_true_2 _ Hm); cbn [negb]; cbn beta iota;
    [done | done |].
  destruct (decide (s ∈ ["approved"; "rejected"])) as [Hin|]; [|done].
  apply list_elem_of_In in Hin. cbn in Hin.
  destruct Hin as [<- | [<- | []]]; done.
Qed.

Section ProcessAnswers.

Variable fromisoformat : string → option datetime.

(** X3: for a manager and a valid status, an id that no stored request
    has is answered 404 [Request not found] and nothing changes; in a
    reachable state these are exactly the ids below 1 or above the number
    of requests. *)
Theorem process_not_found st manager_id rid s :
  is_Some (managers st !! manager_id) →
  s ∈ ["approved"; "rejected"] →
  ((∀ r, r ∈ vacation_requests st → request_id r ≠ rid) →
     process_request manager_id rid (Some (mk_process_data (Some s))) st
       = (st, Returned (JError "Request not found", 404))) ∧
  (reachable fromisoformat st →
     ((∀ r, r ∈ vacation_requests st → request_id r ≠ rid) ↔
      ¬ (1 ≤ rid ≤ Z.of_nat (length (vacation_requests st))))).
Proof.
  intros Hm Hs. split.
  - intros Hnone. run_handler.
    rewrite (bool_decide_eq_true_2 _ Hm). cbn [negb]. cbn beta iota.
    destruct (decide (s ∈ ["approved"; "rejected"])); [|done].
    cbn beta iota.
    destruct (find_request rid (vacation_requests st)) as [[i r]|] eqn:Hfind;
      [|done].
    apply find_request_Some in Hfind as (Hi & Hid & _).
    destruct (Hnone r); [|done]. apply list_elem_of_lookup. eauto.
  - intros Hreach. apply reachable_ledger_ok in Hreach as Hok. split.
    + intros Hnone Hrange.
      destruct (lookup_lt_is_Some_2 (vacation_requests st)
                  (Z.to_nat (rid - 1))) as [r Hr]; [lia|].
      apply Hok in Hr as Hid. destruct Hid as [Hid _].
      apply (Hnone r); [apply list_elem_of_lookup; eauto | lia].
    + intros Hrange r Hin Heq.
      apply list_elem_of_lookup in Hin as [k Hk].
      apply Hok in Hk as Hid. destruct Hid as [Hid _].
      apply lookup_lt_Some in Hk. lia.
Qed.

(** X4: in a reachable state, for a manager and a valid status, processing
    the id of a pending request is answered 200 with the message
    [Request has been <status>]; afterwards the request has that status and
    that manager as processor. *)
Theorem process_pending_succeeds st manager_id k r s :
  reachable fromisoformat st →
  is_Some (managers st !! manager_id) →
  s ∈ ["approved"; "rejected"] →
  vacation_requests st !! k = Some r →
  status r = "pending" →
  ∃ st' r',
    process_request manager_id (request_id r)
      (Some (mk_process_data (Some s))) st
      = (st', Returned (JMessage (String.append "Request has been " s), 200)) ∧
    vacation_requests st' !! k = Some r' ∧
    status r' = s ∧
    processed_by r' = Some manager_id.
Proof.
  intros Hreach Hm Hs Hk Hp.
  apply reachable_ledger_ok in Hreach as Hok.
  pose proof (ledger_ok_find _ _ _ Hok Hk) as Hfind.
  eexists _, (mark_processed s manager_id r). split_and!.
  - run_handler.
    rewrite (bool_decide_eq_true_2 _ Hm). cbn [negb]. cbn beta iota.
    destruct (decide (s ∈ ["approved"; "rejected"])); [|done].
    cbn beta iota. rewrite Hfind. cbn beta iota.
    destruct (decide (status r = "pending")); [|done]. reflexivity.
  - cbn. apply list_lookup_insert_eq. by eapply lookup_lt_Some.
  - done.
  - done.
Qed.

(** X5: a submission that is not answered with a success code, be it by
    an error response or by an exception, leaves the whole state as it
    was; and the only success code is 201. *)
Theorem submit_all_or_nothing st employee_id data now :
  let run := make_vacation_request fromisoformat employee_id data now st in
  (¬ succeeded run.2 → run.1 = st) ∧
  (succeeded run.2 →
     run.2 = Returned (JMessage "Vacation request submitted", 201)).
Proof.
  intros run. subst run.
  destruct (submit_cases fromisoformat st employee_id data now)
    as [[Hst Hfail] | (e & d1 & d2 & n & _ & _ & _ & _ & Hrun)].
  - split; [done|]. intros Hok. done.
  - rewrite Hrun. cbn. split; [|done]. intros Hfail. destruct Hfail. lia.
Qed.

End ProcessAnswers.

Ltac in_list := apply list_elem_of_In; cbn; tauto.

(** X6: [process_request] never raises; its answer carries one of the
    codes 200, 400, 401 and 404, and with any code but 200 the whole state
    is as it was. *)
Theorem process_all_or_nothing st manager_id rid data :
  ∃ body code,
    (process_request manager_id rid data st).2 = Returned (body, code) ∧
    code ∈ [200; 400; 401; 404] ∧
    (code ≠ 200 → (process_request manager_id rid data st).1 = st).
Proof.
  destruct (process_cases st manager_id rid data)
    as [[Hst Hfail] | (i & r & s & _ & _ & _ & _ & _ & Hrun)].
  - revert Hst Hfail. run_handler.
    destruct (bool_decide (is_Some (managers st !! manager_id)));
      cbn [negb]; cbn beta iota.
    2: { intros _ _. eexists _, _. split; [done|]. split; [in_list|done]. }
    destruct data as [[[s|]]|];
      try (intros _ _; eexists _, _; split; [done|];
           split; [in_list|done]).
    destruct (decide (s ∈ ["approved"; "rejected"])); cbn beta iota;
      [|intros _ _; eexists _, _; split; [done|]; split; [in_list|done]].
    destruct (find_request rid (vacation_requests st)) as [[i r]|];
      cbn beta iota;
      [|intros _ _; eexists _, _; split; [done|]; split; [in_list|done]].
    destruct (decide (status r = "pending")).
    + intros _ Hfail. destruct Hfail. cbn. lia.
    + intros _ _. eexists _, _. split; [done|]. split; [in_list|done].
  - rewrite Hrun. eexists _, _. split; [done|]. split; [in_list|done].
Qed.

(** ** What every run keeps *)

Arguments charged_to : simpl never.
Arguments days_charged : simpl never.

Lemma charged_to_cons employee_id r l :
  charged_to employee_id (r :: l)
    = (if decide (applicant r = employee_id) then days_charged r else 0)
      + charged_to employee_id l.
Proof. reflexivity. Qed.

Lemma charged_to_app employee_id l1 l2 :
  charged_to employee_id (l1 ++ l2)
    = charged_to employee_id l1 + charged_to employee_id l2.
Proof.
  induction l1 as [|r l1 IH]; [reflexivity|].
  rewrite <-app_comm_cons, !charged_to_cons, IH. lia.
Qed.

Lemma charged_to_insert employee_id l : ∀ i r r',
  l !! i = Some r →
  applicant r' = applicant r →
  days_charged r' = days_charged r →
  charged_to employee_id (<[i := r']> l) = charged_to employee_id l.
Proof.
  induction l as [|x l IH]; intros i r r' Hi Happ Hdays; [done|].
  destruct i as [|i].
  - injection Hi as ->. change (<[0%nat := r']> (r :: l)) with (r' :: l).
    by rewrite !charged_to_cons, Happ, Hdays.
  - change (<[S i := r']> (x :: l)) with (x :: <[i := r']> l).
    rewrite !charged_to_cons. f_equal. by eapply IH.
Qed.

Lemma days_charged_nonneg r : 0 ≤ days_charged r.
Proof.
  unfold days_charged, business_days.
  destruct (count_loop _ _ _) as [n|] eqn:Hn; [|done].
  apply count_loop_bounds in Hn. lia.
Qed.

Lemma charged_to_nonneg employee_id l : 0 ≤ charged_to employee_id l.
Proof.
  induction l as [|r l IH]; [done|]. rewrite charged_to_cons.
  pose proof (days_charged_nonneg r).
  destruct (decide (applicant r = employee_id)); lia.
Qed.

Lemma request_ok_ext st st' r :
  employees st' = employees st → managers st' = managers st →
  request_ok st r → request_ok st' r.
Proof. unfold request_ok. by intros -> ->. Qed.

Section RunInvariants.

Variable fromisoformat : string → option datetime.

(** The three shapes of a call, with everything the handlers established
    on the way. *)
Lemma step_inv st st' :
  step fromisoformat st st' →
  st' = st ∨
  (∃ employee_id e start_date end_date n now,
     employees st !! employee_id = Some e ∧
     dt_lt start_date end_date ∧
     business_days start_date end_date = Returned n ∧
     0 ≤ n ≤ remaining_vacation_days e ∧
     st' = {| employees :=
                <[employee_id :=
                    mk_employee (name e) (remaining_vacation_days e - n)]>
                  (employees st);
              managers := managers st;
              vacation_requests :=
                vacation_requests st ++
                  [new_request st employee_id start_date end_date now] |}) ∨
  (∃ i r s manager_id,
     is_Some (managers st !! manager_id) ∧
     s ∈ ["approved"; "rejected"] ∧
     vacation_requests st !! i = Some r ∧
     status r = "pending" ∧
     st' = set_vacation_requests
             (<[i := mark_processed s manager_id r]> (vacation_requests st))
             st).
Proof.
  intros [employee_id data now | manager_id rid data].
  - destruct (submit_cases fromisoformat st employee_id data now)
      as [[-> _] | (e & d1 & d2 & n & He & Hlt & Hcount & Hn & ->)];
      [by left|].
    right; left. by exists employee_id, e, d1, d2, n, now.
  - destruct (process_cases st manager_id rid data)
      as [[-> _] | (i & r & s & _ & Hm & Hs & Hfind & Hp & ->)]; [by left|].
    right; right. exists i, r, s, manager_id.
    apply find_request_Some in Hfind as (? & _). done.
Qed.

Lemma reachable_invariant st :
  reachable fromisoformat st →
  managers st = managers initial_state ∧
  (∀ employee_id,
     name <$> employees st !! employee_id
       = name <$> employees initial_state !! employee_id) ∧
  (∀ employee_id e, employees st !! employee_id = Some e →
     ∃ e0, employees initial_state !! employee_id = Some e0 ∧
           0 ≤ remaining_vacation_days e ∧
           remaining_vacation_days e
             + charged_to employee_id (vacation_requests st)
             = remaining_vacation_days e0) ∧
  Forall (request_ok st) (vacation_requests st).
Proof.
  induction 1 as [|st st' _ (IHm & IHn & IHb & IHr) Hstep].
  - split_and!; [done | done | | constructor].
    intros employee_id e He. exists e. split; [done|].
    change (charged_to employee_id (vacation_requests initial_state)) with 0.
    split; [|lia].
    change (employees initial_state)
      with ({[ 1 := mk_employee "John Doe" 20;
               2 := mk_employee "Jane Smith" 20 ]} : gmap Z employee) in He.
    apply lookup_insert_Some in He as [[_ <-] | [_ He]]; [done|].
    apply lookup_singleton_Some in He as [_ <-]. done.
  - destruct (step_inv _ _ Hstep)
      as [-> | [(eid & e & d1 & d2 & n & now & He & Hlt & Hcount & Hn & ->)
               | (i & r & s & m & Hm & Hs & Hi & Hp & ->)]]; [done| |].
    + cbn. split_and!; [done | | |].
      * intros employee_id. destruct (decide (employee_id = eid)) as [->|Hne].
        -- rewrite lookup_insert_eq, <-IHn, He. done.
        -- by rewrite lookup_insert_ne.
      * intros employee_id e'.
        rewrite charged_to_app, charged_to_cons.
        change (charged_to employee_id []) with 0.
        unfold days_charged. cbn [new_request applicant vacation_start_date
          vacation_end_date]. rewrite Hcount.
        destruct (decide (employee_id = eid)) as [->|Hne].
        -- rewrite lookup_insert_eq. intros [= <-]. cbn.
           destruct (IHb _ _ He) as (e0 & He0 & Hpos & Hsum).
           exists e0. destruct (decide (eid = eid)); [|done].
           split_and!; [done | lia | lia].
        -- rewrite lookup_insert_ne by done. intros He'.
           destruct (IHb _ _ He') as (e0 & He0 & Hpos & Hsum).
           exists e0. destruct (decide (eid = employee_id)); [done|].
           split_and!; [done | lia | lia].
      * apply Forall_app. split.
        -- eapply Forall_impl; [exact IHr|]. intros r [? [? [? Hemp]]].
           split_and!; try done. cbn.
           destruct (decide (applicant r = eid)) as [->|Hne].
           ++ rewrite lookup_insert_eq. by eexists.
           ++ by rewrite lookup_insert_ne.
        -- constructor; [|constructor]. split_and!; cbn.
           ++ unfold known_status. apply list_elem_of_In. cbn. tauto.
           ++ done.
           ++ done.
           ++ rewrite lookup_insert_eq. by eexists.
    + cbn. split_and!; [done | done | |].
      * intros employee_id e He.
        erewrite charged_to_insert; [by apply IHb | exact Hi | done | done].
      * apply Forall_insert.
        -- eapply Forall_impl; [exact IHr|]. intros r0 Hr0.
           by eapply request_ok_ext.
        -- rewrite Forall_forall in IHr.
           destruct (IHr r) as (_ & _ & _ & Hemp);
             [apply list_elem_of_lookup; eauto|].
           split_and!; cbn; [| | |done].
           ++ unfold known_status. apply list_elem_of_In.
              apply list_elem_of_In in Hs. cbn in *. tauto.
           ++ apply list_elem_of_In in Hs. cbn in Hs.
              destruct Hs as [<- | [<- | []]]; done.
           ++ by intros m' [= <-].
Qed.

(** X7: in every reachable state the managers are the two seeded ones,
    the employees are the two seeded ones with their names, and every
    balance lies between 0 and the seeded 20. *)
Theorem reachable_directories st :
  reachable fromisoformat st →
  managers st = managers initial_state ∧
  (∀ employee_id,
     is_Some (employees st !! employee_id) ↔ employee_id = 1 ∨ employee_id = 2) ∧
  (∀ employee_id,
     name <$> employees st !! employee_id
       = name <$> employees initial_state !! employee_id) ∧
  (∀ employee_id e, employees st !! employee_id = Some e →
     0 ≤ remaining_vacation_days e ≤ 20).
Proof.
  intros Hreach.
  destruct (reachable_invariant st Hreach) as (Hm & Hn & Hb & _).
  assert (Hinit : ∀ employee_id e0,
    employees initial_state !! employee_id = Some e0 →
    (employee_id = 1 ∨ employee_id = 2) ∧ remaining_vacation_days e0 = 20).
  { intros employee_id e0 He0.
    change (employees initial_state)
      with ({[ 1 := mk_employee "John Doe" 20;
               2 := mk_employee "Jane Smith" 20 ]} : gmap Z employee) in He0.
    apply lookup_insert_Some in He0 as [[<- <-] | [_ He0]]; [auto|].
    apply lookup_singleton_Some in He0 as [<- <-]. auto. }
  split_and!; [done | | done |].
  - intros employee_id. rewrite <-!fmap_is_Some with (f := name), Hn.
    rewrite fmap_is_Some. split.
    + intros [e0 He0]. by apply Hinit in He0 as [? _].
    + intros [-> | ->]; by eexists.
  - intros employee_id e He.
    destruct (Hb _ _ He) as (e0 & He0 & Hpos & Hsum).
    apply Hinit in He0 as [_ H20].
    pose proof (charged_to_nonneg employee_id (vacation_requests st)). lia.
Qed.

(** X8: in every reachable state every stored request has one of the
    statuses pending, approved and rejected; it has a processor exactly
    when it is not pending, the processor is a manager, and the applicant
    is an employee of the directory. *)
Theorem reachable_requests_ok st r :
  reachable fromisoformat st →
  r ∈ vacation_requests st →
  status r ∈ ["pending"; "approved"; "rejected"] ∧
  (status r = "pending" ↔ processed_by r = None) ∧
  (∀ m, processed_by r = Some m → is_Some (managers st !! m)) ∧
  is_Some (employees st !! applicant r).
Proof.
  intros Hreach Hin.
  destruct (reachable_invariant st Hreach) as (_ & _ & _ & Hr).
  rewrite Forall_forall in Hr. by apply Hr.
Qed.

(** X9: in every reachable state the balance of an employee plus the
    business days of all the requests the employee has submitted, whatever
    their status, is the seeded 20: the days of a rejected request are not
    given back. *)
Theorem balance_accounts_for_requests st employee_id e :
  reachable fromisoformat st →
  employees st !! employee_id = Some e →
  remaining_vacation_days e
    + charged_to employee_id (vacation_requests st) = 20.
Proof.
  intros Hreach He.
  destruct (reachable_invariant st Hreach) as (_ & _ & Hb & _).
  destruct (Hb _ _ He) as (e0 & He0 & _ & Hsum). rewrite Hsum.
  change (employees initial_state)
    with ({[ 1 := mk_employee "John Doe" 20;
             2 := mk_employee "Jane Smith" 20 ]} : gmap Z employee) in He0.
  apply lookup_insert_Some in He0 as [[_ <-] | [_ He0]]; [done|].
  apply lookup_singleton_Some in He0 as [_ <-]. done.
Qed.

End RunInvariants.

Section AlongRuns.

Variable fromisoformat : string → option datetime.

Lemma step_employees st st' employee_id :
  step fromisoformat st st' →
  match employees st !! employee_id with
  | Some e =>
      ∃ e', employees st' !! employee_id = Some e' ∧
            name e' = name e ∧
            remaining_vacation_days e' ≤ remaining_vacation_days e
  | None => employees st' !! employee_id = None
  end.
Proof.
  intros Hstep.
  destruct (step_inv _ _ _ Hstep)
    as [-> | [(eid & e & d1 & d2 & n & now & He & _ & _ & Hn & ->)
             | (i & r & s & m & _ & _ & _ & _ & ->)]].
  - destruct (employees st !! employee_id) as [e|]; [|done]. by exists e.
  - cbn. destruct (decide (employee_id = eid)) as [->|Hne].
    + rewrite He, lookup_insert_eq. eexists. split_and!; [done..|cbn; lia].
    + rewrite lookup_insert_ne by done.
      destruct (employees st !! employee_id) as [e0|]; [|done]. by exists e0.
  - cbn. destruct (employees st !! employee_id) as [e|]; [|done]. by exists e.
Qed.

Lemma step_requests st st' k r :
  step fromisoformat st st' →
  vacation_requests st !! k = Some r →
  ∃ r', vacation_requests st' !! k = Some r' ∧
        request_id r' = request_id r ∧
        applicant r' = applicant r ∧
        request_submitted_at r' = request_submitted_at r ∧
        vacation_start_date r' = vacation_start_date r ∧
        vacation_end_date r' = vacation_end_date r ∧
        (status r ≠ "pending" → r' = r).
Proof.
  intros Hstep Hk.
  destruct (step_inv _ _ _ Hstep)
    as [-> | [(eid & e & d1 & d2 & n & now & _ & _ & _ & _ & ->)
             | (i & r0 & s & m & _ & _ & Hi & Hp & ->)]].
  - by exists r.
  - exists r. cbn. split_and!; try done. by apply lookup_app_l_Some.
  - cbn. destruct (decide (k = i)) as [->|Hne].
    + assert (r0 = r) as -> by congruence.
      exists (mark_processed s m r).
      rewrite list_lookup_insert_eq by (by eapply lookup_lt_Some).
      split_and!; done.
    + exists r. rewrite list_lookup_insert_ne by done. done.
Qed.

(** X10: whatever calls are made, from any state, no employee appears or
    disappears, no name changes and no balance goes up: in particular
    rejecting a request gives nothing back. *)
Theorem balances_never_increase st st' employee_id :
  reachable_from fromisoformat st st' →
  match employees st !! employee_id with
  | Some e =>
      ∃ e', employees st' !! employee_id = Some e' ∧
            name e' = name e ∧
            remaining_vacation_days e' ≤ remaining_vacation_days e
  | None => employees st' !! employee_id = None
  end.
Proof.
  induction 1 as [|st1 st2 _ IH Hstep].
  - destruct (employees st !! employee_id) as [e|]; [|done]. by exists e.
  - pose proof (step_employees _ _ employee_id Hstep) as Hs.
    destruct (employees st !! employee_id) as [e|].
    + destruct IH as (e1 & He1 & Hn1 & Hb1). rewrite He1 in Hs.
      destruct Hs as (e2 & He2 & Hn2 & Hb2).
      exists e2. split_and!; [done | congruence | lia].
    + by rewrite IH in Hs.
Qed.

(** X11: whatever calls are made, from any state, a stored request keeps
    its position, id, applicant, submission time and dates, and once it is
    approved or rejected it never changes again. *)
Theorem requests_only_change_once st st' k r :
  reachable_from fromisoformat st st' →
  vacation_requests st !! k = Some r →
  ∃ r', vacation_requests st' !! k = Some r' ∧
        request_id r' = request_id r ∧
        applicant r' = applicant r ∧
        request_submitted_at r' = request_submitted_at r ∧
        vacation_start_date r' = vacation_start_date r ∧
        vacation_end_date r' = vacation_end_date r ∧
        (status r ≠ "pending" → r' = r).
Proof.
  induction 1 as [|st1 st2 _ IH Hstep]; intros Hk.
  - by exists r.
  - destruct (IH Hk) as (r1 & Hk1 & Hid & Happ & Hsub & Hs & He & Hfix).
    destruct (step_requests _ _ _ _ Hstep Hk1)
      as (r2 & Hk2 & Hid2 & Happ2 & Hsub2 & Hs2 & He2 & Hfix2).
    exists r2. split_and!; try congruence.
    intros Hp. rewrite <-(Hfix Hp). apply Hfix2. by rewrite (Hfix Hp).
Qed.

End AlongRuns.

(** ** The two listings *)

Lemma filter_by_status_sublist status_arg l :
  filter_by_status status_arg l `sublist_of` l.
Proof.
  unfold filter_by_status. destruct status_arg as [s|]; [|done].
  destruct (decide (s = "")); [done|]. apply sublist_filter.
Qed.

Lemma elem_of_filter_by_status status_arg l r :
  r ∈ filter_by_status status_arg l ↔
  r ∈ l ∧ ∀ s, status_arg = Some s → s ≠ "" → status r = s.
Proof.
  unfold filter_by_status. destruct status_arg as [s|].
  - destruct (decide (s = "")) as [->|Hne].
    + split; [|by intros [? _]]. intros Hin. split; [done|].
      by intros s [= <-] ?.
    + rewrite list_elem_of_filter. split.
      * intros [Hs Hin]. split; [done|]. by intros s' [= <-] _.
      * intros [Hin Hs]. split; [|done]. by apply Hs.
  - split; [|by intros [? _]]. intros Hin. split; [done|]. by intros s [=].
Qed.

Lemma filter_by_status_commute status_arg (P : request → Prop)
    `{!∀ r, Decision (P r)} l :
  filter_by_status status_arg (filter P l)
    = filter P (filter_by_status status_arg l).
Proof.
  unfold filter_by_status. destruct status_arg as [s|]; [|done].
  destruct (decide (s = "")); [done|].
  rewrite !list_filter_filter. apply list_filter_iff. intros r. tauto.
Qed.

Lemma listed_requests l code :
  listed (Returned (JArray (JRequest <$> l), code)) = Some l.
Proof.
  unfold listed. apply mapM_Some.
  induction l as [|r l IH]; cbn; constructor; done.
Qed.

(** X12: [get_employee_requests] never fails and never changes the state:
    it answers 200 with the requests of that applicant, in the order of the
    list, narrowed to the status of the query when one is given and is not
    the empty string. *)
Theorem employee_requests_listing st employee_id status_arg :
  ∃ out,
    get_employee_requests employee_id status_arg st
      = (st, Returned (JArray (JRequest <$> out), 200)) ∧
    out `sublist_of` vacation_requests st ∧
    (∀ r, r ∈ out ↔
       r ∈ vacation_requests st ∧ applicant r = employee_id ∧
       ∀ s, status_arg = Some s → s ≠ "" → status r = s).
Proof.
  exists (filter_by_status status_arg
            (filter (λ req, applicant req = employee_id)
                    (vacation_requests st))).
  split_and!; [reflexivity | |].
  - etrans; [apply filter_by_status_sublist | apply sublist_filter].
  - intros r. rewrite elem_of_filter_by_status, list_elem_of_filter. tauto.
Qed.

(** X13: for a manager, [get_manager_requests] answers 200 with the
    requests of the list, in order, narrowed to the status of the query
    when one is given and is not the empty string, without changing the
    state; and the listing of an employee is the listing of the manager
    for the same query, narrowed to that applicant. *)
Theorem manager_requests_listing st manager_id status_arg :
  is_Some (managers st !! manager_id) →
  ∃ out,
    get_manager_requests manager_id status_arg st
      = (st, Returned (JArray (JRequest <$> out), 200)) ∧
    out `sublist_of` vacation_requests st ∧
    (∀ r, r ∈ out ↔
       r ∈ vacation_requests st ∧
       ∀ s, status_arg = Some s → s ≠ "" → status r = s) ∧
    (status_arg = None ∨ status_arg = Some "" → out = vacation_requests st) ∧
    (∀ employee_id,
       listed (get_employee_requests employee_id status_arg st).2
         = Some (filter (λ r, applicant r = employee_id) out)).
Proof.
  intros Hm. exists (filter_by_status status_arg (vacation_requests st)).
  split_and!.
  - run_handler. by rewrite (bool_decide_eq_true_2 _ Hm).
  - apply filter_by_status_sublist.
  - intros r. apply elem_of_filter_by_status.
  - by intros [-> | ->].
  - intros employee_id. unfold get_employee_requests, bind, get_state, ret.
    cbn [snd]. rewrite listed_requests. f_equal.
    apply filter_by_status_commute.
Qed.

Section Listings.

Variable fromisoformat : string → option datetime.

(** X14: in a reachable state, the listing of an id that is not in the
    employee directory is the empty list, answered 200: unlike the balance
    query and the submission, it is not an error. *)
Theorem unknown_employee_empty_listing st employee_id status_arg :
  reachable fromisoformat st →
  employees st !! employee_id = None →
  get_employee_requests employee_id status_arg st
    = (st, Returned (JArray [], 200)).
Proof.
  intros Hreach Hnone.
  destruct (reachable_invariant _ st Hreach) as (_ & _ & _ & Hr).
  unfold get_employee_requests, bind, get_state, ret.
  replace (filter (λ req, applicant req = employee_id) (vacation_requests st))
    with (@nil request); [by destruct status_arg as [s|];
      cbn; try destruct (decide (s = ""))|].
  symmetry. induction Hr as [|r l (_ & _ & _ & [e He]) _ IH]; [done|].
  rewrite filter_cons, IH.
  destruct (decide (applicant r = employee_id)) as [Heq|]; [|done].
  congruence.
Qed.

(** X15: in a reachable state the three listings of a manager by status,
    pending, approved and rejected, together hold every request of the list
    exactly once. *)
Theorem status_listings_partition st manager_id :
  reachable fromisoformat st →
  is_Some (managers st !! manager_id) →
  ∃ pending approved rejected,
    listed (get_manager_requests manager_id (Some "pending") st).2
      = Some pending ∧
    listed (get_manager_requests manager_id (Some "approved") st).2
      = Some approved ∧
    listed (get_manager_requests manager_id (Some "rejected") st).2
      = Some rejected ∧
    pending ++ approved ++ rejected ≡ₚ vacation_requests st.
Proof.
  intros Hreach Hm.
  destruct (reachable_invariant _ st Hreach) as (_ & _ & _ & Hr).
  assert (Hrun : ∀ s, s ≠ "" →
    listed (get_manager_requests manager_id (Some s) st).2
      = Some (filter (λ r, status r = s) (vacation_requests st))).
  { intros s Hs. run_handler. rewrite (bool_decide_eq_true_2 _ Hm).
    cbn [negb snd]. cbn beta iota. rewrite listed_requests.
    unfold filter_by_status. by destruct (decide (s = "")). }
  eexists _, _, _. rewrite !Hrun by done. split_and!; [done..|].
  generalize (vacation_requests st) Hr. clear.
  induction l as [|r l IH]; intros Hall; [done|].
  apply Forall_cons in Hall as [(Hs & _) Hall]. specialize (IH Hall).
  unfold known_status in Hs. apply list_elem_of_In in Hs. cbn in Hs.
  rewrite !filter_cons.
  destruct Hs as [Hs | [Hs | [Hs | []]]]; rewrite <-Hs;
    repeat (destruct (decide _); try done); cbn.
  - by rewrite IH.
  - rewrite <-Permutation_middle. by rewrite IH.
  - rewrite app_assoc, <-Permutation_middle, <-app_assoc. by rewrite IH.
Qed.

End Listings.

(** ** The overlap test and the scan *)

(** X16: the test of [get_overlapping_requests] does not depend on the
    order of the two requests. *)
Theorem overlapping_symmetric r1 r2 : overlapping r1 r2 ↔ overlapping r2 r1.
Proof.
  unfold overlapping.
  split; intros (Ha & H1 & H2 & Hc);
    (split_and!; [by intros Heq; apply Ha | done | done | tauto]).
Qed.


Lemma bind_seq_lookup {A B} (f : A → list B) (l : list A) :
  seq 0 (length l) ≫= (λ j, from_option f [] (l !! j)) = l ≫= f.
Proof.
  induction l as [|x l IH]; [done|].
  cbn [length seq]. rewrite <-fmap_S_seq, !bind_cons, list_fmap_bind.
  cbn. f_equal. exact IH.
Qed.

Lemma bind_filter_pairs (x : request) (l : list request) :
  l ≫= (λ y, if decide (overlapping x y) then [(x, y)] else [])
    = filter (λ p, overlapping p.1 p.2) ((λ y, (x, y)) <$> l).
Proof.
  induction l as [|y l IH]; [done|].
  rewrite bind_cons, fmap_cons, filter_cons, IH. cbn [fst snd].
  by destruct (decide (overlapping x y)).
Qed.

(** The scan reports, in order, the pairs of a request with a later one
    that pass the test. *)
Lemma overlap_scan_later_pairs l :
  overlap_scan l = filter (λ p, overlapping p.1 p.2) (later_pairs l).
Proof.
  rewrite overlap_scan_bind. induction l as [|x l IH]; [done|].
  cbn [length seq later_pairs]. rewrite bind_cons, filter_app. f_equal.
  - replace (S (length l) - (0 + 1))%nat with (length l) by lia.
    change (seq (0 + 1) (length l)) with (seq 1 (length l)).
    rewrite <-fmap_S_seq, list_fmap_bind, <-bind_filter_pairs.
    rewrite <-(bind_seq_lookup _ l). apply list_bind_ext; [|done].
    intros j. unfold overlap_item. cbn. by destruct (l !! j).
  - rewrite <-IH, <-fmap_S_seq, list_fmap_bind.
    apply list_bind_ext; [|done]. intros i. cbn.
    change (S i + 1)%nat with (S (i + 1)).
    rewrite <-fmap_S_seq, list_fmap_bind.
    apply list_bind_ext; [|done]. intros j. done.
Qed.

Lemma overlap_scan_snoc l r :
  status r ≠ "approved" → overlap_scan (l ++ [r]) = overlap_scan l.
Proof.
  intros Hr. rewrite !overlap_scan_later_pairs.
  induction l as [|x l IH]; [done|].
  cbn [app later_pairs]. rewrite !filter_app, IH, fmap_app, filter_app.
  cbn [fmap list_fmap]. rewrite filter_cons, filter_nil. cbn [fst snd].
  destruct (decide (overlapping x r)) as [(_ & _ & ? & _)|]; [done|].
  by rewrite app_nil_r.
Qed.

(** Two requests are as good as each other for the scan when they are
    equal or both not approved. *)
Lemma overlap_scan_similar l l' :
  Forall2 (λ a b, a = b ∨ (status a ≠ "approved" ∧ status b ≠ "approved"))
    l l' →
  overlap_scan l = overlap_scan l'.
Proof.
  intros Hsim. rewrite !overlap_scan_later_pairs.
  induction Hsim as [|a b l l' Hab Hsim IH]; [done|].
  cbn [later_pairs]. rewrite !filter_app, IH. f_equal.
  clear IH. induction Hsim as [|y y' l l' Hy Hsim IH]; [done|].
  rewrite !fmap_cons, !filter_cons, IH. cbn [fst snd].
  destruct Hab as [-> | [Ha Hb]], Hy as [-> | [Hy Hy']]; [done|..];
    destruct (decide (overlapping _ _)) as [(_ & ? & ? & _)|]; try done;
    destruct (decide (overlapping _ _)) as [(_ & ? & ? & _)|]; done.
Qed.

Section OverlapReport.

Variable fromisoformat : string → option datetime.

(** X18: only an approval can change what [get_overlapping_requests]
    reports: after any submission, and after any call of [process_request]
    whose body does not ask for approved, every id gets the answer it got
    before. *)
Theorem overlap_report_changes_only_by_approval st manager_id :
  (∀ employee_id data now,
     (get_overlapping_requests manager_id
        (make_vacation_request fromisoformat employee_id data now st).1).2
     = (get_overlapping_requests manager_id st).2) ∧
  (∀ manager_id0 rid data,
     data ≠ Some (mk_process_data (Some "approved")) →
     (get_overlapping_requests manager_id
        (process_request manager_id0 rid data st).1).2
     = (get_overlapping_requests manager_id st).2).
Proof.
  assert (Hreport : ∀ st',
    managers st' = managers st →
    overlap_scan (vacation_requests st') = overlap_scan (vacation_requests st) →
    (get_overlapping_requests manager_id st').2
      = (get_overlapping_requests manager_id st).2).
  { intros st' Hm Hscan. run_handler. rewrite Hm.
    destruct (bool_decide (is_Some (managers st !! manager_id)));
      cbn [negb snd]; cbn beta iota; [|done]. by rewrite Hscan. }
  split.
  - intros employee_id data now.
    destruct (submit_cases fromisoformat st employee_id data now)
      as [[-> _] | (e & d1 & d2 & n & _ & _ & _ & _ & ->)]; [done|].
    apply Hreport; [done|]. cbn. by apply overlap_scan_snoc.
  - intros manager_id0 rid data Hdata.
    destruct (process_cases st manager_id0 rid data)
      as [[-> _] | (i & r & s & -> & _ & Hs & Hfind & Hp & ->)]; [done|].
    apply Hreport; [done|]. cbn.
    apply find_request_Some in Hfind as (Hi & _).
    symmetry. apply overlap_scan_similar.
    rewrite <-(list_insert_id _ _ _ Hi) at 1.
    apply Forall2_insert; [apply Forall_Forall2_diag, Forall_true; auto|].
    right. cbn. rewrite Hp. split; [done|].
    apply list_elem_of_In in Hs. cbn in Hs.
    destruct Hs as [<- | [<- | []]]; [congruence | done].
Qed.

End OverlapReport.

(** ** More on the count of business days *)

Lemma weekday_shift o i :
  weekday (mk_datetime (o + i) 0) = (weekday (mk_datetime o 0) + i) mod 7.
Proof.
  unfold weekday. cbn [ordinal].
  rewrite Z.add_mod_idemp_l by lia. f_equal. lia.
Qed.

(** Any seven consecutive days hold five business days. *)
Lemma week_count o :
  length (filter (λ d, weekday d < 5)
            ((λ o, mk_datetime o 0) <$> seqZ o 7)) = 5%nat.
Proof.
  replace (seqZ o 7)
    with [o + 0; o + 1; o + 2; o + 3; o + 4; o + 5; o + 6]
    by (unfold seqZ; cbn; repeat (apply (f_equal2 cons); [lia|]); done).
  cbn [fmap list_fmap]. rewrite !filter_cons, filter_nil, !weekday_shift.
  assert (Hw : 0 ≤ weekday (mk_datetime o 0) < 7)
    by (unfold weekday; apply Z.mod_pos_bound; lia).
  assert (Hcases : weekday (mk_datetime o 0) = 0 ∨ weekday (mk_datetime o 0) = 1
    ∨ weekday (mk_datetime o 0) = 2 ∨ weekday (mk_datetime o 0) = 3
    ∨ weekday (mk_datetime o 0) = 4 ∨ weekday (mk_datetime o 0) = 5
    ∨ weekday (mk_datetime o 0) = 6) by lia.
  destruct Hcases as [-> | [-> | [-> | [-> | [-> | [-> | ->]]]]]];
    reflexivity.
Qed.

Lemma weeks_count k : ∀ o,
  length (filter (λ d, weekday d < 5)
            ((λ o, mk_datetime o 0) <$> seqZ o (7 * Z.of_nat k)))
    = (5 * k)%nat.
Proof.
  induction k as [|k IH]; intros o; [done|].
  replace (7 * Z.of_nat (S k)) with (7 + 7 * Z.of_nat k) by lia.
  rewrite seqZ_app by lia.
  rewrite fmap_app, filter_app, length_app, week_count, IH. lia.
Qed.

(** X19: between two dates at midnight that span a whole number of weeks,
    the end date before the last day of the calendar, the count is five
    days a week, whatever the weekday of the start. *)
Theorem business_days_whole_weeks start_date end_date k :
  micros start_date = 0 → micros end_date = 0 →
  0 < k →
  ordinal end_date = ordinal start_date + 7 * k - 1 →
  ordinal end_date < MAXORDINAL →
  business_days start_date end_date = Returned (5 * k).
Proof.
  intros Hs He Hk Hspan Hmax. unfold business_days, timedelta_days.
  rewrite Hs, He, Hspan. change ((0 - 0) / US_PER_DAY) with 0.
  rewrite count_loop_returns by lia.
  replace (Z.of_nat (Z.to_nat
      (ordinal start_date + 7 * k - 1 - ordinal start_date + 0 + 1)))
    with (7 * Z.of_nat (Z.to_nat k)) by lia.
  rewrite weeks_count. f_equal. lia.
Qed.

(** X20: with times of day, [end_date] after [start_date] and before the
    last day of the calendar, the count is the number of weekdays from the
    day of [start_date] to the day of [end_date], except that the day of
    [end_date] is left out when its time of day is earlier than that of
    [start_date]. *)
Theorem business_days_with_times start_date end_date :
  0 ≤ micros start_date < US_PER_DAY →
  0 ≤ micros end_date < US_PER_DAY →
  dt_lt start_date end_date →
  ordinal end_date < MAXORDINAL →
  business_days start_date end_date
    = Returned (weekdays_in_span start_date
                  (if decide (micros end_date < micros start_date)
                   then mk_datetime (ordinal end_date - 1) 0
                   else end_date)).
Proof.
  intros Hs He Hlt Hmax. unfold business_days, timedelta_days.
  unfold dt_lt in Hlt. unfold US_PER_DAY in *.
  unfold weekdays_in_span, calendar_days.
  destruct (decide (micros end_date < micros start_date)) as [Hearlier|Hlater].
  - assert ((micros end_date - micros start_date) / 86400000000 = -1) as ->
      by (Z.div_mod_to_equations; lia).
    rewrite count_loop_returns by lia. cbn [ordinal].
    rewrite Z2Nat.id by lia. rewrite Z.add_0_l.
    replace (ordinal end_date - ordinal start_date + -1 + 1)
      with (ordinal end_date - 1 - ordinal start_date + 1) by lia.
    reflexivity.
  - assert ((micros end_date - micros start_date) / 86400000000 = 0) as ->
      by (Z.div_mod_to_equations; lia).
    rewrite count_loop_returns by lia.
    rewrite Z2Nat.id by lia. rewrite Z.add_0_l, Z.add_0_r. reflexivity.
Qed.

(** ** A submission, then the queries *)

Section SubmitThenQuery.

Variable fromisoformat : string → option datetime.

(** X21: after an accepted submission the balance query of the employee
    answers the balance before minus the count, and the listing of the
    employee's pending requests is the one before followed by the new
    request. *)
Theorem submit_then_queries st employee_id e start_str end_str
    start_date end_date now n :
  employees st !! employee_id = Some e →
  fromisoformat start_str = Some start_date →
  fromisoformat end_str = Some end_date →
  dt_lt start_date end_date →
  business_days start_date end_date = Returned n →
  n ≤ remaining_vacation_days e →
  let st' := (make_vacation_request fromisoformat employee_id
                (Some (mk_request_data (Some start_str) (Some end_str)))
                now st).1 in
  get_remaining_vacation_days employee_id st'
    = (st', Returned (JRemaining (remaining_vacation_days e - n), 200)) ∧
  ∃ before r,
    listed (get_employee_requests employee_id (Some "pending") st).2
      = Some before ∧
    listed (get_employee_requests employee_id (Some "pending") st').2
      = Some (before ++ [r]) ∧
    request_id r = Z.of_nat (length (vacation_requests st)) + 1 ∧
    applicant r = employee_id ∧
    vacation_start_date r = start_date ∧
    vacation_end_date r = end_date.
Proof.
  intros He Hs Hend Hlt Hcount Hbal st'. subst st'.
  rewrite (submit_parsed _ _ _ _ _ _ _ _ _ He Hs Hend), Hcount.
  apply dt_lt_not_le in Hlt.
  destruct (decide (dt_le end_date start_date)); [done|].
  destruct (decide (remaining_vacation_days e < n)); [lia|].
  cbn [fst]. split.
  - run_handler. cbn [employees]. by rewrite lookup_insert_eq.
  - eexists _, (new_request st employee_id start_date end_date now).
    unfold get_employee_requests, bind, get_state, ret. cbn [snd].
    rewrite !listed_requests. cbn [vacation_requests].
    split_and!; [reflexivity | | done..].
    f_equal. unfold filter_by_status.
    destruct (decide ("pending" = "")); [done|].
    rewrite !filter_app. f_equal.
    rewrite !filter_cons, !filter_nil. cbn [new_request applicant status].
    destruct (decide (employee_id = employee_id)); [|done].
    rewrite filter_cons, filter_nil. cbn [status].
    by destruct (decide ("pending" = "pending")).
Qed.

End SubmitThenQuery.

(** * Instances of the further properties on the run *)

Lemma run2_reachable : reachable date_fromisoformat run2.
Proof.
  unfold reachable.
  apply (reachable_step _ _ run1); [|apply step_submit].
  apply (reachable_step _ _ initial_state); [|apply step_submit].
  apply reachable_refl.
Defined.

Lemma manager_endpoints_unauthorized_witness :
  (∀ rid data,
     process_request 7 rid data run4
       = (run4, Returned (JError "Unauthorized", 401))) ∧
  (∀ status_arg,
     get_manager_requests 7 status_arg run4
       = (run4, Returned (JError "Unauthorized", 401))).
Proof.
  apply (manager_endpoints_unauthorized run4 7). reflexivity.
Defined.

Lemma process_invalid_body_witness :
  process_request 1 1 None run2
    = (run2, Returned (JError "Invalid request data", 400)) ∧
  process_request 1 1 (Some (mk_process_data None)) run2
    = (run2, Returned (JError "Invalid request data", 400)) ∧
  (∀ s, s ≠ "approved" → s ≠ "rejected" →
     process_request 1 1 (Some (mk_process_data (Some s))) run2
       = (run2, Returned (JError "Invalid status", 400))).
Proof.
  apply (process_invalid_body run2 1 1). by eexists.
Defined.

Lemma process_not_found_witness :
  process_request 1 9 (with_status "approved") run4
    = (run4, Returned (JError "Request not found", 404)) ∧
  ((∀ r, r ∈ vacation_requests run4 → request_id r ≠ 9) ↔
   ¬ (1 ≤ 9 ≤ Z.of_nat (length (vacation_requests run4)))).
Proof.
  destruct (process_not_found date_fromisoformat run4 1 9 "approved")
    as [Hanswer Hids].
  - by eexists.
  - apply list_elem_of_In. simpl. tauto.
  - split; [|apply Hids, run4_reachable].
    apply Hanswer. intros r Hr. apply list_elem_of_In in Hr.
    destruct Hr as [<- | [<- | []]]; discriminate.
Defined.

Lemma process_pending_succeeds_witness :
  ∃ st' r',
    process_request 1 1 (with_status "approved") run2
      = (st', Returned (JMessage "Request has been approved", 200)) ∧
    vacation_requests st' !! 0%nat = Some r' ∧
    status r' = "approved" ∧
    processed_by r' = Some 1.
Proof.
  apply (process_pending_succeeds date_fromisoformat run2 1 0
           (new_request initial_state 1 (date_of 2024 3 4) (date_of 2024 3 8)
              clock)
           "approved").
  - apply run2_reachable.
  - by eexists.
  - apply list_elem_of_In. simpl. tauto.
  - reflexivity.
  - reflexivity.
Defined.

Lemma reachable_directories_witness :
  managers run4 = managers initial_state ∧
  (∀ employee_id,
     is_Some (employees run4 !! employee_id) ↔ employee_id = 1 ∨ employee_id = 2) ∧
  (∀ employee_id,
     name <$> employees run4 !! employee_id
       = name <$> employees initial_state !! employee_id) ∧
  (∀ employee_id e, employees run4 !! employee_id = Some e →
     0 ≤ remaining_vacation_days e ≤ 20).
Proof.
  apply (reachable_directories date_fromisoformat run4), run4_reachable.
Defined.

Lemma reachable_requests_ok_witness :
  ∃ r, vacation_requests run4 !! 1%nat = Some r ∧
    status r ∈ ["pending"; "approved"; "rejected"] ∧
    (status r = "pending" ↔ processed_by r = None) ∧
    (∀ m, processed_by r = Some m → is_Some (managers run4 !! m)) ∧
    is_Some (employees run4 !! applicant r).
Proof.
  eexists. split; [reflexivity|].
  apply (reachable_requests_ok date_fromisoformat run4).
  - apply run4_reachable.
  - apply (list_elem_of_lookup_2 _ 1%nat). reflexivity.
Defined.

Lemma balance_accounts_for_requests_witness :
  15 + charged_to 1 (vacation_requests run4) = 20.
Proof.
  apply (balance_accounts_for_requests date_fromisoformat run4 1
           (mk_employee "John Doe" 15)).
  - apply run4_reachable.
  - reflexivity.
Defined.

Lemma balances_never_increase_witness :
  ∃ e', employees run4 !! 2 = Some e' ∧
        name e' = "Jane Smith" ∧
        remaining_vacation_days e' ≤ 20.
Proof.
  apply (balances_never_increase date_fromisoformat run1 run4 2).
  apply (reachable_step _ _ run3); [|apply step_process].
  apply (reachable_step _ _ run2); [|apply step_process].
  apply (reachable_step _ _ run1); [|apply step_submit].
  apply reachable_refl.
Defined.

Lemma requests_only_change_once_witness :
  ∃ r r',
    vacation_requests run3 !! 0%nat = Some r ∧
    vacation_requests run4 !! 0%nat = Some r' ∧
    request_id r' = request_id r ∧
    applicant r' = applicant r ∧
    request_submitted_at r' = request_submitted_at r ∧
    vacation_start_date r' = vacation_start_date r ∧
    vacation_end_date r' = vacation_end_date r ∧
    (status r ≠ "pending" → r' = r).
Proof.
  eexists.
  destruct (requests_only_change_once date_fromisoformat run3 run4 0
              (mark_processed "approved" 1
                 (new_request initial_state 1 (date_of 2024 3 4)
                    (date_of 2024 3 8) clock)))
    as (r' & Hr'); [| reflexivity | exists r'; split; [reflexivity | exact Hr']].
  apply (reachable_step _ _ run3); [|apply step_process].
  apply reachable_refl.
Defined.

Lemma manager_requests_listing_witness :
  ∃ out,
    get_manager_requests 1 (Some "approved") run3
      = (run3, Returned (JArray (JRequest <$> out), 200)) ∧
    out `sublist_of` vacation_requests run3 ∧
    (∀ r, r ∈ out ↔
       r ∈ vacation_requests run3 ∧
       ∀ s, Some "approved" = Some s → s ≠ "" → status r = s) ∧
    (Some "approved" = None ∨ Some "approved" = Some "" →
       out = vacation_requests run3) ∧
    (∀ employee_id,
       listed (get_employee_requests employee_id (Some "approved") run3).2
         = Some (filter (λ r, applicant r = employee_id) out)).
Proof.
  apply (manager_requests_listing run3 1 (Some "approved")). by eexists.
Defined.

Lemma unknown_employee_empty_listing_witness :
  get_employee_requests 99 None run4 = (run4, Returned (JArray [], 200)).
Proof.
  apply (unknown_employee_empty_listing date_fromisoformat run4 99 None).
  - apply run4_reachable.
  - reflexivity.
Defined.

Lemma status_listings_partition_witness :
  ∃ pending approved rejected,
    listed (get_manager_requests 2 (Some "pending") run3).2 = Some pending ∧
    listed (get_manager_requests 2 (Some "approved") run3).2 = Some approved ∧
    listed (get_manager_requests 2 (Some "rejected") run3).2 = Some rejected ∧
    pending ++ approved ++ rejected ≡ₚ vacation_requests run3.
Proof.
  apply (status_listings_partition date_fromisoformat run3 2).
  - apply run3_reachable.
  - by eexists.
Defined.


Lemma business_days_whole_weeks_witness :
  business_days (date_of 2024 3 6) (date_of 2024 3 19) = Returned (5 * 2).
Proof.
  apply (business_days_whole_weeks (date_of 2024 3 6) (date_of 2024 3 19) 2).
  - reflexivity.
  - reflexivity.
  - lia.
  - reflexivity.
  - reflexivity.
Defined.

Lemma business_days_with_times_witness :
  business_days (mk_datetime (ymd2ord 2024 3 4) 82800000000)
                (mk_datetime (ymd2ord 2024 3 8) 3600000000)
    = Returned (weekdays_in_span (mk_datetime (ymd2ord 2024 3 4) 82800000000)
                  (mk_datetime (ymd2ord 2024 3 8 - 1) 0)).
Proof.
  apply (business_days_with_times
           (mk_datetime (ymd2ord 2024 3 4) 82800000000)
           (mk_datetime (ymd2ord 2024 3 8) 3600000000)).
  - vm_compute. split; [discriminate | reflexivity].
  - vm_compute. split; [discriminate | reflexivity].
  - compute_done.
  - reflexivity.
Defined.

Lemma submit_then_queries_witness :
  get_remaining_vacation_days 1 run1
    = (run1, Returned (JRemaining (20 - 5), 200)) ∧
  ∃ before r,
    listed (get_employee_requests 1 (Some "pending") initial_state).2
      = Some before ∧
    listed (get_employee_requests 1 (Some "pending") run1).2
      = Some (before ++ [r]) ∧
    request_id r = Z.of_nat (length (vacation_requests initial_state)) + 1 ∧
    applicant r = 1 ∧
    vacation_start_date r = date_of 2024 3 4 ∧
    vacation_end_date r = date_of 2024 3 8.
Proof.
  apply (submit_then_queries date_fromisoformat initial_state 1
           (mk_employee "John Doe" 20) "2024-03-04" "2024-03-08"
           (date_of 2024 3 4) (date_of 2024 3 8) clock 5).
  - reflexivity.
  - reflexivity.
  - reflexivity.
  - compute_done.
  - reflexivity.
  - simpl. lia.
Defined.

Lemma business_days_correct_witness :
  business_days (date_of 2024 12 30) (date_of 2025 1 3)
    = Returned (weekdays_in_span (date_of 2024 12 30) (date_of 2025 1 3)).
Proof.
  apply (business_days_correct (date_of 2024 12 30) (date_of 2025 1 3)).
  - reflexivity.
  - reflexivity.
  - compute_done.
  - reflexivity.
Defined.

Lemma business_days_within_week_witness :
  business_days (date_of 2024 3 5) (date_of 2024 3 7)
    = Returned (ordinal (date_of 2024 3 7) - ordinal (date_of 2024 3 5) + 1).
Proof.
  apply (business_days_within_week (date_of 2024 3 5) (date_of 2024 3 7)).
  - reflexivity.
  - reflexivity.
  - compute_done.
  - reflexivity.
  - reflexivity.
  - reflexivity.
Defined.

Lemma business_days_weekend_witness :
  business_days (date_of 2024 3 9) (date_of 2024 3 10) = Returned 0.
Proof.
  apply (business_days_weekend (date_of 2024 3 9) (date_of 2024 3 10)).
  - reflexivity.
  - reflexivity.
  - reflexivity.
  - reflexivity.
  - reflexivity.
Defined.
